(** * Audit-log package: client facade, factory and schema bootstrap

    A shallow embedding of [src/client/audit-log.client.ts]
    (class [AuditLogClient]) and of [src/index.ts]
    ([createAuditLogClient], [validateConfig], [initializeDatabase]),
    followed by the properties of the specification that concern them.

    Conventions.
    - A TypeScript value of type [T | null] or [T | undefined], and an
      optional property [p?: T], is an [option T]; [None] is the absent
      value.  Type annotations (and the non-null assertion [x!]) are erased
      by the compiler, so what travels at run time is the nullable value.
    - [throw new Error(msg)] is the left injection of [result]; an [async]
      method is its sequential body, a rejected promise being a thrown
      error.
    - The collaborators the package imports but whose code is elsewhere
      ([EventService], [CryptoService], [Database], [EventRepository] and
      the types of [../types]) are parameters. *)

From Stdlib Require Import ZArith.
From stdpp Require Import base option list strings gmap.

Local Open Scope Z_scope.

(** ** JavaScript values *)

(** The numeric options of the configuration are integer counts, ports and
    millisecond delays.  [NaN] is kept: it is what [parseInt] yields on a
    malformed environment variable, and [||] treats it as absent. *)
Inductive number :=
  | Num (z : Z)
  | NaN.

Global Instance number_eq_dec : EqDecision number.
Proof. solve_decision. Defined.

(** [ToBoolean]: the empty string, [0], [NaN], [false], [null] and
    [undefined] are falsy; every object is truthy. *)
Class Truthy (A : Type) := truthy : A → bool.
Global Hint Mode Truthy ! : typeclass_instances.

Global Instance string_truthy : Truthy string :=
  λ s, bool_decide (s ≠ "").
Global Instance number_truthy : Truthy number :=
  λ n, match n with Num z => bool_decide (z ≠ 0) | NaN => false end.
Global Instance bool_truthy : Truthy bool := λ b, b.
Global Instance option_truthy {A} `{Truthy A} : Truthy (option A) :=
  λ o, match o with Some a => truthy a | None => false end.

Global Arguments truthy : simpl never.

(** [a || b] evaluates to [a] when [a] is truthy and to [b] otherwise. *)
Definition js_or {A} `{Truthy A} (a b : option A) : option A :=
  if truthy a then a else b.

(** [a || d] where the right operand [d] is a literal. *)
Definition js_or_else {A} `{Truthy A} (a : option A) (d : A) : A :=
  match a with
  | Some x => if truthy x then x else d
  | None => d
  end.

(** Values met by a computed property access [obj[prop]]. *)
Inductive JsValue :=
  | JUndefined
  | JString (s : string)
  | JNumber (n : number)
  | JBoolean (b : bool).

Global Instance JsValue_truthy : Truthy JsValue :=
  λ v, match v with
       | JUndefined => false
       | JString s => truthy s
       | JNumber n => truthy n
       | JBoolean b => truthy b
       end.

Definition of_string (o : option string) : JsValue :=
  from_option JString JUndefined o.
Definition of_number (o : option number) : JsValue :=
  from_option JNumber JUndefined o.
Definition of_boolean (o : option bool) : JsValue :=
  from_option JBoolean JUndefined o.

(** ** Errors and effects *)

Inductive JsError :=
  | Error (message : string).

Global Instance JsError_eq_dec : EqDecision JsError.
Proof. solve_decision. Defined.

(** Outcome of a synchronous call: thrown error or returned value. *)
Definition result (A : Type) : Type := JsError + A.

Definition throw {A} (e : JsError) : result A := inl e.

Global Instance result_ret : MRet result := λ A a, inr a.
Global Instance result_bind : MBind result :=
  λ A B f r, match r with inl e => inl e | inr a => f a end.

(** A call into the event service reads and writes the world [W] behind it
    (the database), and may throw. *)
Definition M (W A : Type) : Type := W → result A * W.

Global Instance M_ret {W} : MRet (M W) := λ A a w, (inr a, w).
Global Instance M_bind {W} : MBind (M W) :=
  λ A B f m w,
    match m w with
    | (inl e, w') => (inl e, w')
    | (inr a, w') => f a w'
    end.

Global Instance M_fmap {W} : FMap (M W) :=
  λ A B f m w,
    match m w with
    | (inl e, w') => (inl e, w')
    | (inr a, w') => (inr (f a), w')
    end.

(** A synchronous step (which may throw) inside an effectful method. *)
Definition lift {W A} (r : result A) : M W A := λ w, (r, w).

(** [logged c m] runs [m] and appends [c] to a log kept next to the world:
    the means to observe which calls reach a collaborator. *)
Definition logged {W L A} (c : L) (m : M W A) : M (W * list L) A :=
  λ s, let '(r, w') := m s.1 in (r, (w', s.2 ++ [c])).

(** ** The event service, as the client sees it *)

(** The types of [../types] that the client mentions; their declarations
    are not part of the files embedded here. *)
Class Types := {
  Payload : Type;
  Filter : Type;
  Event : Type;
  EventQueryResult : Type;
  ValidationResult : Type;
  Date : Type;
}.

Section Client.

Context `{Types} {W : Type}.

(** [CreateEventRequest]: the two scoping properties the client reads,
    and the remaining properties, which the spread [...event] copies. *)
Record CreateEventRequest := {
  project_id : option string;
  environment_id : option string;
  event_rest : Payload;
}.

(** [EventQuery], likewise. *)
Record EventQuery := {
  query_project_id : option string;
  query_environment_id : option string;
  query_rest : Filter;
}.

(** The methods of [EventService] that [AuditLogClient] calls. *)
Record EventService := {
  svc_createEvent : CreateEventRequest → M W Event;
  svc_createEvents : list CreateEventRequest → M W (list Event);
  svc_queryEvents : EventQuery → M W EventQueryResult;
  svc_getEvent : string → option string → option string → M W (option Event);
  svc_validateEvents :
    option string → option string → Date → Date → M W ValidationResult;
  svc_sealEvents : option string → option string → Date → M W number;
  svc_exportToWorm :
    option string → option string → Date → Date → M W number;
  svc_close : M W unit;
}.

(** ** [AuditLogClient] *)

Record AuditLogClient := {
  projectId : option string;
  environmentId : option string;
  eventService : EventService;
}.

(** [constructor(private readonly eventService: EventService) {}] with the
    field initialisers [projectId = null] and [environmentId = null]. *)
Definition new_AuditLogClient (eventService : EventService) : AuditLogClient :=
  {| projectId := None; environmentId := None; eventService := eventService |}.

Definition setContext (this : AuditLogClient) (projectId environmentId : string)
  : AuditLogClient :=
  {| projectId := Some projectId;
     environmentId := Some environmentId;
     eventService := eventService this |}.

Definition context_not_set : JsError :=
  Error "Context not set. Call setContext() before performing operations.".

Definition validateContext (this : AuditLogClient) : result unit :=
  if negb (truthy (projectId this)) || negb (truthy (environmentId this))
  then throw context_not_set
  else mret ().

(** [{ ...event, project_id: ..., environment_id: ... }] *)
Definition withContext (this : AuditLogClient) (event : CreateEventRequest)
  : CreateEventRequest :=
  {| project_id := js_or (project_id event) (projectId this);
     environment_id := js_or (environment_id event) (environmentId this);
     event_rest := event_rest event |}.

Definition createEvent (this : AuditLogClient) (event : CreateEventRequest)
  : M W Event :=
  lift (validateContext this);;
  let eventWithContext := withContext this event in
  svc_createEvent (eventService this) eventWithContext.

Definition createEvents (this : AuditLogClient) (events : list CreateEventRequest)
  : M W (list Event) :=
  lift (validateContext this);;
  let eventsWithContext := map (withContext this) events in
  svc_createEvents (eventService this) eventsWithContext.

Definition queryEvents (this : AuditLogClient) (query : EventQuery)
  : M W EventQueryResult :=
  lift (validateContext this);;
  let queryWithContext :=
    {| query_project_id := js_or (query_project_id query) (projectId this);
       query_environment_id :=
         js_or (query_environment_id query) (environmentId this);
       query_rest := query_rest query |} in
  svc_queryEvents (eventService this) queryWithContext.

Definition getEvent (this : AuditLogClient) (eventId : string)
  : M W (option Event) :=
  lift (validateContext this);;
  svc_getEvent (eventService this) eventId (projectId this) (environmentId this).

Definition validateEvents (this : AuditLogClient) (startTime endTime : Date)
  : M W ValidationResult :=
  lift (validateContext this);;
  svc_validateEvents (eventService this)
    (projectId this) (environmentId this) startTime endTime.

Definition sealEvents (this : AuditLogClient) (upToTime : Date) : M W number :=
  lift (validateContext this);;
  svc_sealEvents (eventService this)
    (projectId this) (environmentId this) upToTime.

Definition exportToWorm (this : AuditLogClient) (startTime endTime : Date)
  : M W number :=
  lift (validateContext this);;
  svc_exportToWorm (eventService this)
    (projectId this) (environmentId this) startTime endTime.

Definition close (this : AuditLogClient) : M W unit :=
  svc_close (eventService this).

(** ** The public operations, as one family

    The seven operations guarded by [validateContext], with their
    arguments, and what each answers. *)

Inductive Operation :=
  | CreateEvent (event : CreateEventRequest)
  | CreateEvents (events : list CreateEventRequest)
  | QueryEvents (query : EventQuery)
  | GetEvent (eventId : string)
  | ValidateEvents (startTime endTime : Date)
  | SealEvents (upToTime : Date)
  | ExportToWorm (startTime endTime : Date).

Inductive Response :=
  | REvent (e : Event)
  | REvents (es : list Event)
  | RQuery (r : EventQueryResult)
  | RLookup (o : option Event)
  | RValidation (v : ValidationResult)
  | RCount (n : number)
  | RClosed.

Definition perform (this : AuditLogClient) (op : Operation) : M W Response :=
  match op with
  | CreateEvent event => REvent <$> createEvent this event
  | CreateEvents events => REvents <$> createEvents this events
  | QueryEvents query => RQuery <$> queryEvents this query
  | GetEvent eventId => RLookup <$> getEvent this eventId
  | ValidateEvents s e => RValidation <$> validateEvents this s e
  | SealEvents t => RCount <$> sealEvents this t
  | ExportToWorm s e => RCount <$> exportToWorm this s e
  end.

End Client.

Arguments EventService {_} W.
Arguments AuditLogClient {_} W.

Section Tracing.

Context `{Types} {W : Type}.

(** ** Observing the calls that reach the service

    [traced svc] behaves as [svc] and appends every call it receives,
    with its arguments, to a log kept next to the world. *)

Inductive ServiceCall :=
  | CallCreateEvent (event : CreateEventRequest)
  | CallCreateEvents (events : list CreateEventRequest)
  | CallQueryEvents (query : EventQuery)
  | CallGetEvent (eventId : string) (projectId environmentId : option string)
  | CallValidateEvents (projectId environmentId : option string)
      (startTime endTime : Date)
  | CallSealEvents (projectId environmentId : option string) (upToTime : Date)
  | CallExportToWorm (projectId environmentId : option string)
      (startTime endTime : Date)
  | CallClose.

Definition traced (svc : EventService W) : EventService (W * list ServiceCall) :=
  {| svc_createEvent event :=
       logged (CallCreateEvent event) (svc_createEvent svc event);
     svc_createEvents events :=
       logged (CallCreateEvents events) (svc_createEvents svc events);
     svc_queryEvents query :=
       logged (CallQueryEvents query) (svc_queryEvents svc query);
     svc_getEvent eventId p e :=
       logged (CallGetEvent eventId p e) (svc_getEvent svc eventId p e);
     svc_validateEvents p e s t :=
       logged (CallValidateEvents p e s t) (svc_validateEvents svc p e s t);
     svc_sealEvents p e t :=
       logged (CallSealEvents p e t) (svc_sealEvents svc p e t);
     svc_exportToWorm p e s t :=
       logged (CallExportToWorm p e s t) (svc_exportToWorm svc p e s t);
     svc_close := logged CallClose (svc_close svc) |}.

(** The service method a logged call stands for. *)
Definition serve (svc : EventService W) (c : ServiceCall) : M W Response :=
  match c with
  | CallCreateEvent event => REvent <$> svc_createEvent svc event
  | CallCreateEvents events => REvents <$> svc_createEvents svc events
  | CallQueryEvents query => RQuery <$> svc_queryEvents svc query
  | CallGetEvent eventId p e => RLookup <$> svc_getEvent svc eventId p e
  | CallValidateEvents p e s t => RValidation <$> svc_validateEvents svc p e s t
  | CallSealEvents p e t => RCount <$> svc_sealEvents svc p e t
  | CallExportToWorm p e s t => RCount <$> svc_exportToWorm svc p e s t
  | CallClose => (λ _, RClosed) <$> svc_close svc
  end.

(** The call is one of the method the operation is named after. *)
Definition same_method (op : Operation) (c : ServiceCall) : bool :=
  match op, c with
  | CreateEvent _, CallCreateEvent _
  | CreateEvents _, CallCreateEvents _
  | QueryEvents _, CallQueryEvents _
  | GetEvent _, CallGetEvent _ _ _
  | ValidateEvents _ _, CallValidateEvents _ _ _ _
  | SealEvents _, CallSealEvents _ _ _
  | ExportToWorm _ _, CallExportToWorm _ _ _ _ => true
  | _, _ => false
  end.

End Tracing.

(** ** Configuration ([AuditLogConfig])

    The interface declares [database] and [crypto] and some of their
    properties as required, but [validateConfig] tests them at run time, so
    every property is nullable here. *)

Record DatabaseOptions := {
  db_host : option string;
  db_port : option number;
  db_user : option string;
  db_password : option string;
  db_database : option string;
  db_ssl : option bool;
  db_poolSize : option number;
  db_idleTimeoutMillis : option number;
  db_debug : option bool;
}.

Record CryptoConfig := {
  crypto_algorithm : option string;
  crypto_hashAlgorithm : option string;
  crypto_privateKey : option string;
  crypto_publicKey : option string;
}.

Record ApplicationConfig := {
  app_maxBulkEvents : option number;
  app_createEventTimeout : option number;
}.

Record ValidationConfig := {
  validateOnQuery : option bool;
  scheduledValidationInterval : option number;
}.

Record ContextConfig := {
  ctx_projectId : option string;
  ctx_environmentId : option string;
}.

Record AuditLogConfig := {
  database : option DatabaseOptions;
  crypto : option CryptoConfig;
  application : option ApplicationConfig;
  partitionDays : option number;
  sealAfterDays : option number;
  wormEnabled : option bool;
  wormStoragePath : option string;
  validation : option ValidationConfig;
  context : option ContextConfig;
}.

(** Objects are truthy. *)
Global Instance DatabaseOptions_truthy : Truthy DatabaseOptions := λ _, true.
Global Instance CryptoConfig_truthy : Truthy CryptoConfig := λ _, true.

(** [obj.prop]: reading a property of [undefined] throws a [TypeError]. *)
Definition type_error : JsError :=
  Error "TypeError: Cannot read properties of undefined".

Definition member {O A} (obj : option O) (prop : O → A) : result A :=
  match obj with
  | Some o => mret (prop o)
  | None => throw type_error
  end.

(** [config.database[prop]], with [prop] a property name. *)
Definition db_get (db : DatabaseOptions) (prop : string) : JsValue :=
  match prop with
  | "host" => of_string (db_host db)
  | "port" => of_number (db_port db)
  | "user" => of_string (db_user db)
  | "password" => of_string (db_password db)
  | "database" => of_string (db_database db)
  | "ssl" => of_boolean (db_ssl db)
  | "poolSize" => of_number (db_poolSize db)
  | "idleTimeoutMillis" => of_number (db_idleTimeoutMillis db)
  | "debug" => of_boolean (db_debug db)
  | _ => JUndefined
  end%string.

(** [for (const x of xs) { body }], the body being able to throw. *)
Fixpoint for_of {A} (xs : list A) (body : A → result unit) : result unit :=
  match xs with
  | [] => mret ()
  | x :: xs' => body x;; for_of xs' body
  end.

Definition requiredDbProps : list string :=
  ["host"; "port"; "user"; "database"]%string.

Definition validateConfig (config : AuditLogConfig) : result unit :=
  (if negb (truthy (database config))
   then throw (Error "Database configuration is required")
   else mret ());;
  for_of requiredDbProps (λ prop,
    value ← member (database config) (λ db, db_get db prop);
    if negb (truthy value)
    then throw (Error ("Database." +:+ prop +:+ " is required"))
    else mret ());;
  (if negb (truthy (crypto config))
   then throw (Error "Crypto configuration is required")
   else mret ());;
  privateKey ← member (crypto config) crypto_privateKey;
  (if negb (truthy privateKey)
   then throw (Error "Crypto.privateKey is required")
   else mret ());;
  publicKey ← member (crypto config) crypto_publicKey;
  (if negb (truthy publicKey)
   then throw (Error "Crypto.publicKey is required")
   else mret ()).

(** The errors [validateConfig] throws. *)
Definition configuration_errors : list JsError :=
  Error "Database configuration is required"
  :: map (λ prop, Error ("Database." +:+ prop +:+ " is required")) requiredDbProps
  ++ [Error "Crypto configuration is required";
      Error "Crypto.privateKey is required";
      Error "Crypto.publicKey is required"].

(** ** The factory [createAuditLogClient] *)

(** The object literal passed to [new CryptoService(...)]. *)
Record CryptoOptions := {
  algorithm : string;
  hashAlgorithm : string;
  privateKey : option string;
  publicKey : option string;
}.

(** The classes the factory instantiates.  Their constructors may throw,
    and act on the state [G] of the process: [Database.getInstance] hands
    out a process-wide instance. *)
Class Collaborators `{Types} (W G : Type) := {
  Database : Type;
  Pool : Type;
  CryptoService : Type;
  EventRepository : Type;
  Database_getInstance : option DatabaseOptions → M G Database;
  getPool : Database → M G Pool;
  new_CryptoService : CryptoOptions → M G CryptoService;
  new_EventRepository : Pool → M G EventRepository;
  new_EventService :
    EventRepository → CryptoService → number → number → M G (EventService W);
}.

Section Factory.

Context `{Collaborators W G}.

Definition createAuditLogClient (config : AuditLogConfig)
  : M G (AuditLogClient W) :=
  lift (validateConfig config);;
  database ← Database_getInstance (database config);
  algorithm ← lift (member (crypto config) crypto_algorithm);
  hashAlgorithm ← lift (member (crypto config) crypto_hashAlgorithm);
  privateKey ← lift (member (crypto config) crypto_privateKey);
  publicKey ← lift (member (crypto config) crypto_publicKey);
  cryptoService ← new_CryptoService
    {| algorithm := js_or_else algorithm "RSA-SHA256";
       hashAlgorithm := js_or_else hashAlgorithm "sha256";
       privateKey := privateKey;
       publicKey := publicKey |};
  pool ← getPool database;
  eventRepository ← new_EventRepository pool;
  eventService ← new_EventService eventRepository cryptoService
    (js_or_else (application config ≫= app_maxBulkEvents) (Num 1000))
    (js_or_else (application config ≫= app_createEventTimeout) (Num 5000));
  let client := new_AuditLogClient eventService in
  match context config ≫= ctx_projectId, context config ≫= ctx_environmentId with
  | Some projectId, Some environmentId =>
      if truthy projectId && truthy environmentId
      then mret (setContext client projectId environmentId)
      else mret client
  | _, _ => mret client
  end.

End Factory.

(** The constructor calls of the factory, with the arguments that are
    plain data. *)
Inductive Construction :=
  | GetInstance (config : option DatabaseOptions)
  | NewCryptoService (options : CryptoOptions)
  | GetPool
  | NewEventRepository
  | NewEventService (maxBulkEvents createEventTimeout : number).

(** The same collaborators, every constructor call being logged. *)
Definition traced_collaborators `{Types} {W G} (C : Collaborators W G)
  : Collaborators W (G * list Construction) :=
  {| Database := Database;
     Pool := Pool;
     CryptoService := CryptoService;
     EventRepository := EventRepository;
     Database_getInstance config :=
       logged (GetInstance config) (Database_getInstance config);
     getPool database := logged GetPool (getPool database);
     new_CryptoService options :=
       logged (NewCryptoService options) (new_CryptoService options);
     new_EventRepository pool :=
       logged NewEventRepository (new_EventRepository pool);
     new_EventService repository cryptoService maxBulkEvents createEventTimeout :=
       logged (NewEventService maxBulkEvents createEventTimeout)
         (new_EventService repository cryptoService
            maxBulkEvents createEventTimeout) |}.

(** ** The schema created by [initializeDatabase]

    The DDL script is data: a list of statements over column definitions,
    transcribed clause by clause from the SQL text. *)

Inductive SqlType :=
  | UUID
  | VARCHAR (n : nat)
  | TEXT
  | BOOLEAN
  | JSONB
  | TIMESTAMP
  | INTEGER
  | SERIAL.

(** UUIDs, timestamps and JSON documents are carried in their text form. *)
Inductive SqlValue :=
  | NULL
  | SqlBool (b : bool)
  | SqlInt (z : Z)
  | SqlText (s : string).

Global Instance SqlValue_eq_dec : EqDecision SqlValue.
Proof. solve_decision. Defined.

Record Column := {
  col_name : string;
  col_type : SqlType;
  col_primary_key : bool;
  col_not_null : bool;
  col_default : option SqlValue;
}.

Global Instance SqlType_eq_dec : EqDecision SqlType.
Proof. solve_decision. Defined.

Global Instance Column_eq_dec : EqDecision Column.
Proof. solve_decision. Defined.

Definition column (name : string) (type : SqlType) : Column :=
  {| col_name := name; col_type := type;
     col_primary_key := false; col_not_null := false; col_default := None |}.

Definition PRIMARY_KEY (c : Column) : Column :=
  {| col_name := col_name c; col_type := col_type c;
     col_primary_key := true; col_not_null := col_not_null c;
     col_default := col_default c |}.

Definition NOT_NULL (c : Column) : Column :=
  {| col_name := col_name c; col_type := col_type c;
     col_primary_key := col_primary_key c; col_not_null := true;
     col_default := col_default c |}.

Definition DEFAULT (v : SqlValue) (c : Column) : Column :=
  {| col_name := col_name c; col_type := col_type c;
     col_primary_key := col_primary_key c; col_not_null := col_not_null c;
     col_default := Some v |}.

Inductive Statement :=
  | CREATE_TABLE_IF_NOT_EXISTS (table : string) (columns : list Column)
  | CREATE_INDEX_IF_NOT_EXISTS (index table : string) (columns : list string).

Definition audit_events_columns : list Column := [
  PRIMARY_KEY (column "id" UUID);
  NOT_NULL (column "action" (VARCHAR 255));
  NOT_NULL (column "crud" (VARCHAR 10));
  column "group_id" (VARCHAR 255);
  column "group_name" (VARCHAR 255);
  column "actor_id" (VARCHAR 255);
  column "actor_name" (VARCHAR 255);
  column "actor_href" (VARCHAR 1024);
  column "target_id" (VARCHAR 255);
  column "target_name" (VARCHAR 255);
  column "target_href" (VARCHAR 1024);
  column "target_type" (VARCHAR 255);
  column "source_ip" (VARCHAR 50);
  column "description" TEXT;
  DEFAULT (SqlBool false) (column "is_anonymous" BOOLEAN);
  DEFAULT (SqlBool false) (column "is_failure" BOOLEAN);
  column "component" (VARCHAR 255);
  column "version" (VARCHAR 50);
  column "external_id" (VARCHAR 255);
  column "fields" JSONB;
  column "metadata" JSONB;
  NOT_NULL (column "created_at" TIMESTAMP);
  NOT_NULL (column "received_at" TIMESTAMP);
  NOT_NULL (column "project_id" (VARCHAR 255));
  NOT_NULL (column "environment_id" (VARCHAR 255));
  NOT_NULL (column "hash" (VARCHAR 128));
  column "previous_hash" (VARCHAR 128);
  NOT_NULL (column "signature" TEXT);
  column "actor_fields" JSONB;
  column "target_fields" JSONB
].

Definition ingest_task_columns : list Column := [
  PRIMARY_KEY (column "id" UUID);
  NOT_NULL (column "original_event" JSONB);
  NOT_NULL (column "project_id" (VARCHAR 255));
  NOT_NULL (column "environment_id" (VARCHAR 255));
  NOT_NULL (column "new_event_id" UUID);
  NOT_NULL (column "received" TIMESTAMP);
  DEFAULT (SqlBool false) (column "processed" BOOLEAN)
].

Definition backlog_columns : list Column := [
  PRIMARY_KEY (column "id" SERIAL);
  NOT_NULL (column "project_id" (VARCHAR 255));
  NOT_NULL (column "environment_id" (VARCHAR 255));
  NOT_NULL (column "new_event_id" UUID);
  NOT_NULL (column "received" TIMESTAMP);
  NOT_NULL (column "original_event" JSONB);
  DEFAULT (SqlBool false) (column "processed" BOOLEAN);
  DEFAULT (SqlInt 0) (column "attempts" INTEGER);
  column "last_attempt" TIMESTAMP
].

(** The script passed to [database.query], statement by statement. *)
Definition schema_script : list Statement := [
  CREATE_TABLE_IF_NOT_EXISTS "audit_events" audit_events_columns;
  CREATE_INDEX_IF_NOT_EXISTS "idx_audit_events_project_env" "audit_events"
    ["project_id"; "environment_id"]%string;
  CREATE_INDEX_IF_NOT_EXISTS "idx_audit_events_created_at" "audit_events"
    ["created_at"]%string;
  CREATE_INDEX_IF_NOT_EXISTS "idx_audit_events_actor_id" "audit_events"
    ["actor_id"]%string;
  CREATE_INDEX_IF_NOT_EXISTS "idx_audit_events_target_id" "audit_events"
    ["target_id"]%string;
  CREATE_INDEX_IF_NOT_EXISTS "idx_audit_events_action" "audit_events"
    ["action"]%string;
  CREATE_TABLE_IF_NOT_EXISTS "ingest_task" ingest_task_columns;
  CREATE_TABLE_IF_NOT_EXISTS "backlog" backlog_columns
].

(** [initializeDatabase(config)] obtains the database instance and hands it
    the script as one query.  What the server does with the query is not
    part of the package. *)
Section InitializeDatabase.

Context `{Collaborators W G}.
Variable query : Database → list Statement → M G unit.

Definition initializeDatabase (config : DatabaseOptions) : M G unit :=
  database ← Database_getInstance (Some config);
  query database schema_script.

End InitializeDatabase.

(** The definition of a column in a table, and whether it admits [NULL]:
    [PRIMARY KEY] and [SERIAL] imply [NOT NULL]. *)
Definition lookup_column (columns : list Column) (name : string) : option Column :=
  head (filter (λ c, col_name c = name) columns).

Definition nullable (c : Column) : bool :=
  negb (col_not_null c || col_primary_key c
        || bool_decide (col_type c = SERIAL)).

(** ** Rows and [INSERT]

    A row maps each column name to a value.  An [INSERT] names some columns
    with their values; a column it does not name takes its [DEFAULT], the
    next value of its sequence for [SERIAL], and [NULL] otherwise.  Each
    value then goes through the input function of the column type, which
    accepts it, in the form it is stored in, or refuses it.  The row is
    refused when the [INSERT] names an unknown column, when a value is
    refused by its column type, when a column that does not admit null is
    null, or when the primary key is already taken. *)

Abbreviation Row := (gmap string SqlValue).

(** The input functions are the database's own: the syntax of a UUID, of a
    timestamp and of a JSON document, lengths counted in characters, 32-bit
    integers.  They are a parameter of the model.  What the properties use
    of them: [NULL] is a value of every type, no other value is stored as
    [NULL], and a boolean and a 32-bit integer are stored as they are. *)
Class DataTypes := {
  input : SqlType → SqlValue → option SqlValue;
  input_NULL : ∀ type, input type NULL = Some NULL;
  input_not_NULL : ∀ type v, v ≠ NULL → input type v ≠ Some NULL;
  input_BOOLEAN : ∀ b, input BOOLEAN (SqlBool b) = Some (SqlBool b);
  input_INTEGER : ∀ z, -2147483648 ≤ z ≤ 2147483647 →
                       input INTEGER (SqlInt z) = Some (SqlInt z);
}.

(** [SERIAL] is an [INTEGER] column fed by a sequence. *)
Definition value_type (type : SqlType) : SqlType :=
  match type with SERIAL => INTEGER | _ => type end.

(** The value an [INSERT] gives a column; [serial] is what the sequence of
    a [SERIAL] column hands out for this [INSERT]. *)
Definition column_value (supplied : Row) (serial : Z) (c : Column) : SqlValue :=
  match supplied !! col_name c with
  | Some v => v
  | None =>
      match col_default c with
      | Some d => d
      | None => match col_type c with SERIAL => SqlInt serial | _ => NULL end
      end
  end.

Definition stored_value `{T : DataTypes} (supplied : Row) (serial : Z)
    (c : Column) : option SqlValue :=
  input (value_type (col_type c)) (column_value supplied serial c).

Definition build_row `{T : DataTypes} (columns : list Column) (supplied : Row)
    (serial : Z) : Row :=
  list_to_map
    ((λ c, (col_name c, default NULL (stored_value supplied serial c)))
       <$> columns).

Definition cell (row : Row) (name : string) : SqlValue :=
  default NULL (row !! name).

Definition column_ok `{T : DataTypes} (supplied : Row) (serial : Z)
    (c : Column) : bool :=
  match stored_value supplied serial c with
  | Some v => negb (negb (nullable c) && bool_decide (v = NULL))
  | None => false
  end.

Definition primary_key_of (columns : list Column) (row : Row) : list SqlValue :=
  (λ c, cell row (col_name c)) <$> filter (λ c, col_primary_key c = true) columns.

Definition insert `{T : DataTypes} (columns : list Column) (supplied : Row)
    (serial : Z) (rows : list Row) : option (list Row) :=
  let row := build_row columns supplied serial in
  if bool_decide (dom supplied ⊆ list_to_set (col_name <$> columns))
     && forallb (column_ok supplied serial) columns
     && bool_decide (primary_key_of columns row ∉ primary_key_of columns <$> rows)
  then Some (rows ++ [row])
  else None.

(** The contents of a table that [INSERT]s produce, from the empty table
    on. *)
Inductive inserted `{T : DataTypes} (columns : list Column) : list Row → Prop :=
  | inserted_empty : inserted columns []
  | inserted_row supplied serial rows rows' :
      inserted columns rows →
      insert columns supplied serial rows = Some rows' →
      inserted columns rows'.

(** ** The event store behind the service

    The contents of the three tables, rows in the order of their insertion. *)

Record Store := {
  audit_events : list Row;
  ingest_task : list Row;
  backlog : list Row;
}.

Definition empty_store : Store :=
  {| audit_events := []; ingest_task := []; backlog := [] |}.

(** A bound query parameter; [null] binds to [NULL]. *)
Definition sql_param (o : option string) : SqlValue :=
  from_option SqlText NULL o.

(** [a = b] in a [WHERE] clause: never satisfied by [NULL]. *)
Definition sql_eq (a b : SqlValue) : bool :=
  bool_decide (a ≠ NULL) && bool_decide (b ≠ NULL) && bool_decide (a = b).

(** ** Parts of the package whose code is not among the sources

    [EventService] and the repository are imported by the files embedded
    above, but their code is elsewhere.  The definitions of this part
    follow the specification instead. *)

(** Modelled from the spec: the [WHERE] clause of the scoped lookup behind
    [EventService.getEvent], which is missing.  Section 4.3: scoped queries
    always carry the [project_id] and [environment_id] predicates. *)
Definition in_scope (id : string) (project env : option string) (row : Row) : bool :=
  sql_eq (cell row "id") (SqlText id)
  && sql_eq (cell row "project_id") (sql_param project)
  && sql_eq (cell row "environment_id") (sql_param env).

(** Modelled from the spec: the repository lookup, which is missing.
    Section 4.3: [get_event(id, project, env)] is a scoped lookup that
    returns the event or "not found". *)
Definition get_event (id : string) (project env : option string) (store : Store)
  : option Row :=
  head (filter (λ row, in_scope id project env row = true) (audit_events store)).

(** Modelled from the spec: [EventService.getEvent], which is missing.
    Section 6: [get_event(id)] answers the event or "not found"; the lookup
    reads the store and does not change it. *)
Definition store_getEvent (id : string) (project env : option string)
  : M Store (option Row) :=
  λ store, (inr (get_event id project env store), store).

(** ** A concrete instance, to run the definitions on inputs *)

(** Events are rows of [audit_events]; the other types are free. *)
Definition store_types (P F Q V D : Type) : Types :=
  {| Payload := P; Filter := F; Event := Row;
     EventQueryResult := Q; ValidationResult := V; Date := D |}.

Definition sample_types : Types := store_types string string (list Row) bool Z.

Section Sample.

Local Existing Instance sample_types.

Definition request_row (event : CreateEventRequest) : Row :=
  list_to_map
    [("action", SqlText (event_rest event));
     ("project_id", sql_param (project_id event));
     ("environment_id", sql_param (environment_id event))]%string.

(** Lookups are served from the store; the other methods answer without
    touching it. *)
Definition sample_service : EventService Store :=
  {| svc_createEvent event := mret (request_row event);
     svc_createEvents events := mret (request_row <$> events);
     svc_queryEvents query := λ store, (inr (audit_events store), store);
     svc_getEvent := store_getEvent;
     svc_validateEvents _ _ _ _ := mret true;
     svc_sealEvents _ _ _ := mret (Num 0);
     svc_exportToWorm _ _ _ _ := mret (Num 0);
     svc_close := mret () |}.

(** Constructors that succeed and keep their arguments. *)
Definition sample_collaborators : Collaborators Store unit :=
  {| Database := option DatabaseOptions;
     Pool := unit;
     CryptoService := CryptoOptions;
     EventRepository := unit;
     Database_getInstance config := mret config;
     getPool _ := mret ();
     new_CryptoService options := mret options;
     new_EventRepository _ := mret ();
     new_EventService _ _ _ _ := mret sample_service |}.

Definition sample_database : DatabaseOptions :=
  {| db_host := Some "localhost"; db_port := Some (Num 5432);
     db_user := Some "postgres"; db_password := None;
     db_database := Some "audit_logs"; db_ssl := None;
     db_poolSize := None; db_idleTimeoutMillis := None; db_debug := None |}.

Definition sample_crypto : CryptoConfig :=
  {| crypto_algorithm := None; crypto_hashAlgorithm := None;
     crypto_privateKey := Some "PRIVATE KEY";
     crypto_publicKey := Some "PUBLIC KEY" |}.

Definition sample_config (application : option ApplicationConfig)
    (context : option ContextConfig) : AuditLogConfig :=
  {| database := Some sample_database; crypto := Some sample_crypto;
     application := application;
     partitionDays := None; sealAfterDays := None; wormEnabled := None;
     wormStoragePath := None; validation := None; context := context |}.

Definition sample_event (id project env : string) (previous : SqlValue) : Row :=
  list_to_map
    [("id", SqlText id); ("action", SqlText "user.create");
     ("crud", SqlText "create");
     ("created_at", SqlText "2024-01-01T00:00:00.000Z");
     ("received_at", SqlText "2024-01-01T00:00:00.000Z");
     ("project_id", SqlText project); ("environment_id", SqlText env);
     ("hash", SqlText "h"); ("previous_hash", previous);
     ("signature", SqlText "s")]%string.

End Sample.

(** ** Input functions to run [INSERT] on inputs

    These accept less than the database does, so that a row they accept is
    a row the tables accept: a UUID in its canonical form of 32 lower-case
    hexadecimal digits in five groups; text in printable ASCII, where a
    character is a byte; a timestamp written [YYYY-MM-DD hh:mm:ss] with a
    year between 1000 and 2999, a month between 01 and 09, a day between 10
    and 19 and an hour between 00 and 19; the empty JSON object; a boolean;
    a 32-bit integer.  Each is stored as it is written. *)

Definition between (low high : nat) (a : Ascii.ascii) : bool :=
  (low <=? Ascii.nat_of_ascii a)%nat && (Ascii.nat_of_ascii a <=? high)%nat.

Definition digit : Ascii.ascii → bool := between 48 57.
Definition hexadecimal (a : Ascii.ascii) : bool := digit a || between 97 102 a.
Definition printable : Ascii.ascii → bool := between 32 126.
Definition exactly (b : string) (a : Ascii.ascii) : bool :=
  bool_decide (String a EmptyString = b).

(** The string has one character per predicate, each satisfied. *)
Fixpoint shaped (shape : list (Ascii.ascii → bool)) (s : string) : bool :=
  match shape, s with
  | [], EmptyString => true
  | p :: shape', String a s' => p a && shaped shape' s'
  | _, _ => false
  end.

Definition uuid_shape : list (Ascii.ascii → bool) :=
  replicate 8 hexadecimal ++ [exactly "-"] ++ replicate 4 hexadecimal
  ++ [exactly "-"] ++ replicate 4 hexadecimal ++ [exactly "-"]
  ++ replicate 4 hexadecimal ++ [exactly "-"] ++ replicate 12 hexadecimal.

Definition timestamp_shape : list (Ascii.ascii → bool) :=
  [between 49 50; digit; digit; digit; exactly "-";
   exactly "0"; between 49 57; exactly "-";
   exactly "1"; digit; exactly " ";
   between 48 49; digit; exactly ":";
   between 48 53; digit; exactly ":";
   between 48 53; digit].

Definition sample_input (type : SqlType) (v : SqlValue) : option SqlValue :=
  let accepted : bool :=
    match v, type with
    | NULL, _ => true
    | SqlBool _, BOOLEAN => true
    | SqlInt z, (INTEGER | SERIAL) =>
        bool_decide (-2147483648 ≤ z ≤ 2147483647)
    | SqlText s, UUID => shaped uuid_shape s
    | SqlText s, VARCHAR n =>
        shaped (replicate (String.length s) printable) s
        && bool_decide (String.length s ≤ n)%nat
    | SqlText s, TEXT => shaped (replicate (String.length s) printable) s
    | SqlText s, JSONB => bool_decide (s = "{}"%string)
    | SqlText s, TIMESTAMP => shaped timestamp_shape s
    | _, _ => false
    end in
  if accepted then Some v else None.

Definition sample_data_types : DataTypes.
Proof.
  refine {| input := sample_input |}.
  - by intros [].
  - intros type v Hv. unfold sample_input.
    by destruct (match v, type with NULL, _ => _ | _, _ => _ end);
      [intros [= ->]|].
  - done.
  - intros z Hz. unfold sample_input.
    by rewrite bool_decide_eq_true_2.
Defined.

(** An event of the stream [(project, env)], in the form the tables accept. *)
Definition sample_audit_event (id project env : string) (previous : SqlValue)
  : Row :=
  list_to_map
    [("id", SqlText id); ("action", SqlText "user.create");
     ("crud", SqlText "create");
     ("created_at", SqlText "2024-01-15 10:30:00");
     ("received_at", SqlText "2024-01-15 10:30:01");
     ("project_id", SqlText project); ("environment_id", SqlText env);
     ("hash", SqlText "9f86d081884c7d65"); ("previous_hash", previous);
     ("signature", SqlText "c2lnbmF0dXJl")]%string.

(** A submission waiting for its commit. *)
Definition sample_task : Row :=
  list_to_map
    [("original_event", SqlText "{}");
     ("project_id", SqlText "p1"); ("environment_id", SqlText "production");
     ("new_event_id", SqlText "7d444840-9dc0-11d1-b245-5ffdce74fad2");
     ("received", SqlText "2024-01-15 10:30:00")]%string.

Definition sample_id_1 : string := "6ba7b810-9dad-11d1-80b4-00c04fd430c8".
Definition sample_id_2 : string := "6ba7b811-9dad-11d1-80b4-00c04fd430c8".

(** * Vocabulary of the properties *)

(** A context field that [validateContext] rejects. *)
Definition unset (o : option string) : Prop := o = None ∨ o = Some ""%string.

(** The value forwarded for a scoping property: the one the request
    supplies when it is non-empty, the bound one otherwise. *)
Definition substituted (supplied bound forwarded : option string) : Prop :=
  (∀ s, supplied = Some s → s ≠ ""%string → forwarded = Some s)
  ∧ (unset supplied → forwarded = bound).

Definition event_forwarded `{Types} {W} (this : AuditLogClient W)
    (event forwarded : CreateEventRequest) : Prop :=
  substituted (project_id event) (projectId this) (project_id forwarded)
  ∧ substituted (environment_id event) (environmentId this)
      (environment_id forwarded)
  ∧ event_rest forwarded = event_rest event.

Definition query_forwarded `{Types} {W} (this : AuditLogClient W)
    (query forwarded : EventQuery) : Prop :=
  substituted (query_project_id query) (projectId this)
    (query_project_id forwarded)
  ∧ substituted (query_environment_id query) (environmentId this)
      (query_environment_id forwarded)
  ∧ query_rest forwarded = query_rest query.

(** A numeric option that [||] replaces by its default. *)
Definition defaulted (o : option number) : Prop :=
  o = None ∨ o = Some (Num 0) ∨ o = Some NaN.

(** The configuration supplies a non-empty default context. *)
Definition context_supplied (config : AuditLogConfig) : Prop :=
  ∃ p e, context config ≫= ctx_projectId = Some p
         ∧ context config ≫= ctx_environmentId = Some e
         ∧ p ≠ ""%string ∧ e ≠ ""%string.

(** The five collaborators of the factory are constructed for the
    configuration, one after the other from the state [g], the last one
    being the event service [svc], in the state [g']. *)
Definition constructed `{Collaborators W G} (config : AuditLogConfig) (g : G)
    (svc : EventService W) (g' : G) : Prop :=
  ∃ instance g1 cryptoService g2 pool g3 eventRepository g4,
    Database_getInstance (database config) g = (inr instance, g1)
    ∧ new_CryptoService
        {| algorithm :=
             js_or_else (crypto config ≫= crypto_algorithm) "RSA-SHA256";
           hashAlgorithm :=
             js_or_else (crypto config ≫= crypto_hashAlgorithm) "sha256";
           privateKey := crypto config ≫= crypto_privateKey;
           publicKey := crypto config ≫= crypto_publicKey |} g1
      = (inr cryptoService, g2)
    ∧ getPool instance g2 = (inr pool, g3)
    ∧ new_EventRepository pool g3 = (inr eventRepository, g4)
    ∧ new_EventService eventRepository cryptoService
        (js_or_else (application config ≫= app_maxBulkEvents) (Num 1000))
        (js_or_else (application config ≫= app_createEventTimeout) (Num 5000))
        g4
      = (inr svc, g').

(** The event lies in the scope [(project, env)]. *)
Definition scoped (project env : option string) (event : Row) : Prop :=
  Some (cell event "project_id") = SqlText <$> project
  ∧ Some (cell event "environment_id") = SqlText <$> env.

(** The event at position [i] is the genesis event of its stream: no
    earlier event has the same project and environment. *)
Definition genesis (events : list Row) (i : nat) : Prop :=
  ∀ j earlier event,
    (j < i)%nat → events !! j = Some earlier → events !! i = Some event →
    ¬ (cell earlier "project_id" = cell event "project_id"
       ∧ cell earlier "environment_id" = cell event "environment_id").

(** The backlog-progress invariant on one row, [processed = true] or
    [attempts < MAX_ATTEMPTS], for a value of [MAX_ATTEMPTS], which the
    sources do not declare; a null [attempts] is not below any bound. *)
Definition backlog_progress (max_attempts : Z) (row : Row) : bool :=
  bool_decide (cell row "processed" = SqlBool true)
  || match cell row "attempts" with
     | SqlInt attempts => bool_decide (attempts < max_attempts)
     | _ => false
     end.

(** The columns under which a script creates a table: those of its first
    [CREATE TABLE] statement for that name. *)
Fixpoint table_definition (script : list Statement) (name : string)
  : option (list Column) :=
  match script with
  | [] => None
  | CREATE_TABLE_IF_NOT_EXISTS table columns :: script' =>
      if decide (table = name) then Some columns
      else table_definition script' name
  | CREATE_INDEX_IF_NOT_EXISTS _ _ _ :: script' => table_definition script' name
  end.

(** A scoping value that is present and not empty. *)
Definition nonempty (o : option string) : Prop :=
  ∃ s, o = Some s ∧ s ≠ ""%string.

(** A call that names the stream it is about: its project and environment
    ids are present and not empty. *)
Definition call_scoped `{Types} (c : ServiceCall) : Prop :=
  match c with
  | CallCreateEvent event =>
      nonempty (project_id event) ∧ nonempty (environment_id event)
  | CallCreateEvents events =>
      Forall (λ event, nonempty (project_id event)
                       ∧ nonempty (environment_id event)) events
  | CallQueryEvents query =>
      nonempty (query_project_id query) ∧ nonempty (query_environment_id query)
  | CallGetEvent _ p e
  | CallValidateEvents p e _ _
  | CallSealEvents p e _
  | CallExportToWorm p e _ _ => nonempty p ∧ nonempty e
  | CallClose => True
  end.

(** * The REST layer around the package

    The authentication middleware ([src/middlewares/auth.ts]), the route
    tables and the controllers, as the repository's notes list them.
    [express] is modelled by what a handler does with it: a middleware
    either sends a response or calls [next()] with the request it may have
    extended; a controller sends a response.  Sending a response does not
    throw. *)

(** ** Ambient values: [process.env] and [parseInt] *)

(** [parseInt(string, radix?)] is the standard function, a parameter. *)
Class Runtime := {
  process_env : gmap string string;
  parseInt : string → option Z → number;
}.

(** [process.env.NAME || 'fallback'] *)
Definition env_or `{Runtime} (name fallback : string) : string :=
  js_or_else (process_env !! name) fallback.

(** [s.startsWith(searchString)] *)
Definition startsWith (s searchString : string) : bool :=
  String.prefix searchString s.

(** [s.substring(start)]: what follows the first [start] characters.  It is
    only applied after an ASCII prefix of that length was matched, where
    bytes and UTF-16 code units coincide. *)
Definition substring_from (s : string) (start : nat) : string :=
  String.substring start (String.length s - start) s.

(** ** JSON bodies *)

#[warnings="-register-all"]
Inductive Json :=
  | JsonUndefined
  | JsonNull
  | JsonBoolean (b : bool)
  | JsonNumber (n : number)
  | JsonString (s : string)
  | JsonArray (items : list Json)
  | JsonObject (fields : list (string * Json)).

Global Instance Json_truthy : Truthy Json :=
  λ v, match v with
       | JsonUndefined | JsonNull => false
       | JsonBoolean b => b
       | JsonNumber n => truthy n
       | JsonString s => truthy s
       | JsonArray _ | JsonObject _ => true
       end.

(** The properties of a body, by name.  An array body is represented by the
    object of its indexed elements, which is all that reads of a named
    property and the object spread see of it. *)
Abbreviation JsonBody := (gmap string Json).

(** [obj.name] on an object: the property, or [undefined]. *)
Definition property (obj : JsonBody) (name : string) : Json :=
  default JsonUndefined (obj !! name).

(** A route parameter read by destructuring [req.params]. *)
Definition param (o : option string) : Json :=
  from_option JsonString JsonUndefined o.

(** ** Requests and responses *)

(** [AuthToken], attached to the request by [authenticate]. *)
Record AuthToken := {
  token_projectId : string;
  token_environmentId : string;
  token_isAdmin : bool;
}.

(** [AuthRequest]: the parts of the [express] request the code reads;
    [req_body] is [None] when [req.body] is [undefined]. *)
Record AuthRequest := {
  req_authorization : option string;
  req_params : gmap string string;
  req_body : option JsonBody;
  req_token : option AuthToken;
}.

(** What [res.status(n).json(...)] or [res.status(n).send()] sends: a
    [{ message }] object, a document, a list of documents under a key, or
    nothing. *)
Inductive Content (D : Type) :=
  | Message (message : string)
  | Document (d : D)
  | Listing (key : string) (ds : list D)
  | NoContent.
Arguments Message {D} message.
Arguments Document {D} d.
Arguments Listing {D} key ds.
Arguments NoContent {D}.

Record HttpResponse (D : Type) := {
  status : Z;
  content : Content D;
}.
Arguments status {D} _.
Arguments content {D} _.

(** The two ways a middleware ends: it responds, or it calls [next()]. *)
Inductive Handled (D : Type) :=
  | Responded (response : HttpResponse D)
  | Next (req : AuthRequest).
Arguments Responded {D} response.
Arguments Next {D} req.

(** [res.status(n).json({ message })] *)
Definition reply {D} (code : Z) (message : string) : HttpResponse D :=
  {| status := code; content := Message message |}.

(** [try { body } catch (error) { handler }]: the handler runs on the state
    the body left. *)
Definition try_catch {S A} (body : M S A) (handler : JsError → M S A) : M S A :=
  λ s, match body s with
       | (inl e, s') => handler e s'
       | (inr a, s') => (inr a, s')
       end.

(** ** [src/middlewares/auth.ts] *)

(** A row of the token lookup of [authenticate]. *)
Record TokenRow := {
  row_id : string;
  row_projectId : string;
  row_environmentId : string;
  row_is_active : bool;
}.

Section Auth.

Context `{Runtime} `{Collaborators W G} {D : Type}.

(** [db.query(text, [token])] for the one statement of [authenticate],
    which selects the rows of [api_tokens] whose [token] is the bound
    parameter, that have not expired and are active. *)
Variable find_active_token : Database → string → M G (list TokenRow).

Definition authenticate (req : AuthRequest) : M G (Handled D) :=
  try_catch
    (match req_authorization req with
     | None => mret (Responded (reply 401 "Authorization header missing"))
     | Some authHeader =>
         if negb (truthy authHeader)
         then mret (Responded (reply 401 "Authorization header missing"))
         else
           let extracted :=
             if startsWith authHeader "token="
             then Some (substring_from authHeader 6)
             else if startsWith authHeader "Bearer "
                  then Some (substring_from authHeader 7)
                  else None in
           match extracted with
           | None => mret (Responded (reply 401 "Invalid authorization format"))
           | Some token =>
               if negb (truthy token)
               then mret (Responded (reply 401 "No token provided"))
               else
                 db ← Database_getInstance
                   (Some {| db_host := Some (env_or "DB_HOST" "localhost");
                            db_port :=
                              Some (parseInt (env_or "DB_PORT" "5432") (Some 10));
                            db_user := Some (env_or "DB_USER" "postgres");
                            db_password :=
                              Some (env_or "DB_PASSWORD" "postgres");
                            db_database := Some (env_or "DB_NAME" "audit_logs");
                            db_ssl := None; db_poolSize := None;
                            db_idleTimeoutMillis := None; db_debug := None |});
                 rows ← find_active_token db token;
                 match rows with
                 | [] => mret (Responded (reply 401 "Invalid or expired token"))
                 | tokenData :: _ =>
                     mret (Next
                       {| req_authorization := req_authorization req;
                          req_params := req_params req;
                          req_body := req_body req;
                          req_token :=
                            Some {| token_projectId := row_projectId tokenData;
                                    token_environmentId :=
                                      row_environmentId tokenData;
                                    token_isAdmin := false |} |})
                 end
           end
     end)
    (λ error, mret (Responded (reply 500 "Authentication failed"))).

Definition requireAdmin (req : AuthRequest) : Handled D :=
  match req_token req with
  | None => Responded (reply 403 "Admin access required")
  | Some token =>
      if negb (token_isAdmin token)
      then Responded (reply 403 "Admin access required")
      else Next req
  end.

Definition validateProjectAccess (req : AuthRequest) : Handled D :=
  let projectId := req_params req !! "projectId" in
  match req_token req with
  | None => Responded (reply 403 "Insufficient permissions for this project")
  | Some token =>
      if bool_decide (Some (token_projectId token) ≠ projectId)
      then Responded (reply 403 "Insufficient permissions for this project")
      else Next req
  end.

(** ** Route tables

    [router.use(m)] for each middleware in turn, then the controller
    method bound to the route. *)
Fixpoint route (middlewares : list (AuthRequest → M G (Handled D)))
    (controller : AuthRequest → M G (HttpResponse D)) (req : AuthRequest)
  : M G (HttpResponse D) :=
  match middlewares with
  | [] => controller req
  | middleware :: rest =>
      handled ← middleware req;
      match handled with
      | Responded response => mret response
      | Next req' => route rest controller req'
      end
  end.

(** [src/routes/projectRoutes.ts] *)
Definition projectRoutes := route [authenticate; λ req, mret (requireAdmin req)].

(** [src/routes/environmentRoutes.ts] and [src/routes/tokenRoutes.ts] *)
Definition projectScopedRoutes :=
  route [authenticate; λ req, mret (validateProjectAccess req)].

End Auth.

(** A runtime and a token table to run the middleware on inputs. *)
Definition sample_runtime : Runtime :=
  {| process_env := {[ "DB_HOST"%string := "db.internal"%string ]};
     parseInt text radix :=
       if decide (text = "5432"%string) then Num 5432 else NaN |}.

Definition sample_find_active_token (db : option DatabaseOptions) (token : string)
  : M unit (list TokenRow) :=
  mret (if decide (token = "aud_secret"%string)
        then [ {| row_id := "tok_1"; row_projectId := "p1";
                  row_environmentId := "production"; row_is_active := true |} ]
        else []).

Definition sample_request (authorization : option string) (projectId : string)
  : AuthRequest :=
  {| req_authorization := authorization;
     req_params := {[ "projectId"%string := projectId ]};
     req_body := None;
     req_token := None |}.

(** [req'] is [req] as a project-scoped route hands it to its controller:
    same parameters and body, and a non-admin token of the project the
    route names. *)
Definition admitted (req req' : AuthRequest) : Prop :=
  req_authorization req' = req_authorization req
  ∧ req_params req' = req_params req
  ∧ req_body req' = req_body req
  ∧ ∃ token, req_token req' = Some token
             ∧ token_isAdmin token = false
             ∧ req_params req !! "projectId" = Some (token_projectId token).

Section AuthVocabulary.

Context `{Runtime} `{Collaborators W G} {D : Type}.
Variable find_active_token : Database → string → M G (list TokenRow).

(** The database options [authenticate] connects with. *)
Definition auth_database : option DatabaseOptions :=
  Some {| db_host := Some (env_or "DB_HOST" "localhost");
          db_port := Some (parseInt (env_or "DB_PORT" "5432") (Some 10));
          db_user := Some (env_or "DB_USER" "postgres");
          db_password := Some (env_or "DB_PASSWORD" "postgres");
          db_database := Some (env_or "DB_NAME" "audit_logs");
          db_ssl := None; db_poolSize := None;
          db_idleTimeoutMillis := None; db_debug := None |}.

(** What [authenticate] does once it holds a non-empty token: connect, look
    the token up, and answer by what the lookup returns. *)
Definition token_lookup (req : AuthRequest) (token : string) : M G (Handled D) :=
  try_catch
    (db ← Database_getInstance auth_database;
     rows ← find_active_token db token;
     match rows with
     | [] => mret (Responded (reply 401 "Invalid or expired token"))
     | tokenData :: _ =>
         mret (Next
           {| req_authorization := req_authorization req;
              req_params := req_params req;
              req_body := req_body req;
              req_token :=
                Some {| token_projectId := row_projectId tokenData;
                        token_environmentId := row_environmentId tokenData;
                        token_isAdmin := false |} |})
     end)
    (λ error, mret (Responded (reply 500 "Authentication failed"))).

End AuthVocabulary.


(** ** Controllers

    The services are behind the controllers as the event service is behind
    the client: records of their methods, which read and write the state
    [G] and may throw. *)

Section Controllers.

Context {G P : Type}.

(** The methods of [ProjectService] that [ProjectController] calls. *)
Record ProjectService := {
  ps_createProject : JsonBody → M G P;
  ps_listProjects : M G (list P);
  ps_getProjectById : option string → M G (option P);
  ps_updateProject : option string → option JsonBody → M G (option P);
  ps_deleteProject : option string → M G bool;
}.

(** The method of [TokenService] that [TokenController.createToken] calls. *)
Record TokenService := {
  ts_createToken : JsonBody → M G P;
  ts_getTokenById : option string → M G (option P);
  ts_revokeToken : option string → M G bool;
  ts_deleteToken : option string → M G bool;
}.

(** The methods of [EnvironmentService] that address one environment. *)
Record EnvironmentService := {
  es_getEnvironmentById : option string → M G (option P);
  es_updateEnvironment : option string → option JsonBody → M G (option P);
  es_deleteEnvironment : option string → M G bool;
}.

Definition sent (code : Z) (d : P) : HttpResponse P :=
  {| status := code; content := Document d |}.

(** [src/controllers/projectController.ts] *)

Definition createProject (projectService : ProjectService) (req : AuthRequest)
  : M G (HttpResponse P) :=
  try_catch
    (match req_body req with
     | None => lift (throw type_error)
     | Some data =>
         if negb (truthy (property data "name"))
         then mret (reply 400 "Project name is required")
         else
           project ← ps_createProject projectService data;
           mret (sent 201 project)
     end)
    (λ error, mret (reply 500 "Failed to create project")).

Definition listProjects (projectService : ProjectService) (req : AuthRequest)
  : M G (HttpResponse P) :=
  try_catch
    (projects ← ps_listProjects projectService;
     mret {| status := 200; content := Listing "projects" projects |})
    (λ error, mret (reply 500 "Failed to list projects")).

Definition getProject (projectService : ProjectService) (req : AuthRequest)
  : M G (HttpResponse P) :=
  try_catch
    (let projectId := req_params req !! "projectId" in
     project ← ps_getProjectById projectService projectId;
     match project with
     | None => mret (reply 404 "Project not found")
     | Some project => mret (sent 200 project)
     end)
    (λ error, mret (reply 500 "Failed to get project")).

Definition updateProject (projectService : ProjectService) (req : AuthRequest)
  : M G (HttpResponse P) :=
  try_catch
    (let projectId := req_params req !! "projectId" in
     let data := req_body req in
     project ← ps_updateProject projectService projectId data;
     match project with
     | None => mret (reply 404 "Project not found")
     | Some project => mret (sent 200 project)
     end)
    (λ error, mret (reply 500 "Failed to update project")).

Definition deleteProject (projectService : ProjectService) (req : AuthRequest)
  : M G (HttpResponse P) :=
  try_catch
    (let projectId := req_params req !! "projectId" in
     success ← ps_deleteProject projectService projectId;
     if negb success
     then mret (reply 404 "Project not found")
     else mret {| status := 204; content := NoContent |})
    (λ error, mret (reply 500 "Failed to delete project")).

(** The five endpoints, each with the message of its [catch] block. *)
Definition project_endpoints (projectService : ProjectService)
  : list (string * (AuthRequest → M G (HttpResponse P))) :=
  [("Failed to create project"%string, createProject projectService);
   ("Failed to list projects"%string, listProjects projectService);
   ("Failed to get project"%string, getProject projectService);
   ("Failed to update project"%string, updateProject projectService);
   ("Failed to delete project"%string, deleteProject projectService)].

(** [src/controllers/tokenController.ts]: [{ ...req.body, projectId,
    environmentId }], the spread of an [undefined] body adding nothing. *)
Definition token_dto (req : AuthRequest) : JsonBody :=
  <["environmentId" := param (req_params req !! "environmentId")]>
    (<["projectId" := param (req_params req !! "projectId")]>
       (default ∅ (req_body req))).

Definition createToken (tokenService : TokenService) (req : AuthRequest)
  : M G (HttpResponse P) :=
  try_catch
    (let data := token_dto req in
     if negb (truthy (property data "displayName"))
     then mret (reply 400 "Token display name is required")
     else
       token ← ts_createToken tokenService data;
       mret (sent 201 token))
    (λ error, mret (reply 500 "Failed to create API token")).

Definition getToken (tokenService : TokenService) (req : AuthRequest)
  : M G (HttpResponse P) :=
  try_catch
    (let tokenId := req_params req !! "tokenId" in
     token ← ts_getTokenById tokenService tokenId;
     match token with
     | None => mret (reply 404 "API token not found")
     | Some token => mret (sent 200 token)
     end)
    (λ error, mret (reply 500 "Failed to get API token")).

Definition revokeToken (tokenService : TokenService) (req : AuthRequest)
  : M G (HttpResponse P) :=
  try_catch
    (let tokenId := req_params req !! "tokenId" in
     success ← ts_revokeToken tokenService tokenId;
     if negb success
     then mret (reply 404 "API token not found")
     else mret (reply 200 "API token revoked successfully"))
    (λ error, mret (reply 500 "Failed to revoke API token")).

Definition deleteToken (tokenService : TokenService) (req : AuthRequest)
  : M G (HttpResponse P) :=
  try_catch
    (let tokenId := req_params req !! "tokenId" in
     success ← ts_deleteToken tokenService tokenId;
     if negb success
     then mret (reply 404 "API token not found")
     else mret {| status := 204; content := NoContent |})
    (λ error, mret (reply 500 "Failed to delete API token")).

(** [src/controllers/environmentController.ts], the endpoints of
    [/:environmentId]. *)
Definition getEnvironment (environmentService : EnvironmentService)
    (req : AuthRequest) : M G (HttpResponse P) :=
  try_catch
    (let environmentId := req_params req !! "environmentId" in
     environment ← es_getEnvironmentById environmentService environmentId;
     match environment with
     | None => mret (reply 404 "Environment not found")
     | Some environment => mret (sent 200 environment)
     end)
    (λ error, mret (reply 500 "Failed to get environment")).

Definition updateEnvironment (environmentService : EnvironmentService)
    (req : AuthRequest) : M G (HttpResponse P) :=
  try_catch
    (let environmentId := req_params req !! "environmentId" in
     let data := req_body req in
     environment ← es_updateEnvironment environmentService environmentId data;
     match environment with
     | None => mret (reply 404 "Environment not found")
     | Some environment => mret (sent 200 environment)
     end)
    (λ error, mret (reply 500 "Failed to update environment")).

Definition deleteEnvironment (environmentService : EnvironmentService)
    (req : AuthRequest) : M G (HttpResponse P) :=
  try_catch
    (let environmentId := req_params req !! "environmentId" in
     success ← es_deleteEnvironment environmentService environmentId;
     if negb success
     then mret (reply 404 "Environment not found")
     else mret {| status := 204; content := NoContent |})
    (λ error, mret (reply 500 "Failed to delete environment")).

(** The endpoints that address one environment or one token, each with the
    route parameter it reads. *)
Definition by_id_endpoints (environmentService : EnvironmentService)
    (tokenService : TokenService)
  : list (string * (AuthRequest → M G (HttpResponse P))) :=
  [("environmentId"%string, getEnvironment environmentService);
   ("environmentId"%string, updateEnvironment environmentService);
   ("environmentId"%string, deleteEnvironment environmentService);
   ("tokenId"%string, getToken tokenService);
   ("tokenId"%string, revokeToken tokenService);
   ("tokenId"%string, deleteToken tokenService)].

End Controllers.

Arguments ProjectService : clear implicits.
Arguments TokenService : clear implicits.
Arguments EnvironmentService : clear implicits.

(** Services over a list of names, to run the controllers on inputs. *)
Definition sample_project_service : ProjectService (list string) string :=
  {| ps_createProject data := λ names,
       match property data "name" with
       | JsonString name => (inr name, names ++ [name])
       | _ => (inl (Error "name must be a string"), names)
       end;
     ps_listProjects := λ names, (inr names, names);
     ps_getProjectById id := λ names,
       (inr (id ≫= λ name, if decide (name ∈ names) then Some name else None),
        names);
     ps_updateProject id data := λ names,
       (inr (id ≫= λ name, if decide (name ∈ names) then Some name else None),
        names);
     ps_deleteProject id := λ names,
       (inr (from_option (λ name, bool_decide (name ∈ names)) false id),
        filter (λ name, id ≠ Some name) names) |}.

Definition sample_token_service : TokenService (list JsonBody) string :=
  {| ts_createToken data := λ created,
       (inr "aud_token"%string, created ++ [data]);
     ts_getTokenById id := mret id;
     ts_revokeToken id := mret (bool_decide (id = Some "tok_1"%string));
     ts_deleteToken id := mret (bool_decide (id = Some "tok_1"%string)) |}.

(** One environment, [env_2], which belongs to project [p2]. *)
Definition sample_environment_service
  : EnvironmentService (list JsonBody) string :=
  let owner (id : option string) : option string :=
    id ≫= λ name, if decide (name = "env_2"%string) then Some "p2"%string else None in
  {| es_getEnvironmentById id := mret (owner id);
     es_updateEnvironment id data := mret (owner id);
     es_deleteEnvironment id := mret (bool_decide (is_Some (owner id))) |}.

(** ** Start-up of an application that uses the package ([setupAuditLog])

    The example of the repository's notes builds every setting from
    [process.env].  [console.log] and [console.error] are not modelled. *)

(** [process.env.NAME === 'value'] *)
Definition env_is `{Runtime} (name value : string) : bool :=
  bool_decide (process_env !! name = Some value).

Section Setup.

Context `{Runtime} `{Collaborators W G}.

(** [initializeDatabase] run against the server of the process: it connects
    and executes the schema script, and may throw. *)
Variable run_initializeDatabase : DatabaseOptions → M G unit.

(** The object literal passed to [initializeDatabase]. *)
Definition setup_schema_config : DatabaseOptions :=
  {| db_host := Some (env_or "DB_HOST" "localhost");
     db_port := Some (parseInt (env_or "DB_PORT" "5432") None);
     db_user := Some (env_or "DB_USER" "postgres");
     db_password := Some (env_or "DB_PASSWORD" "");
     db_database := Some (env_or "DB_NAME" "audit_logs");
     db_ssl := Some (env_is "DB_SSL" "true");
     db_poolSize := None;
     db_idleTimeoutMillis := None;
     db_debug := None |}.

(** The object literal passed to [createAuditLogClient]. *)
Definition setup_config : AuditLogConfig :=
  {| database := Some
       {| db_host := Some (env_or "DB_HOST" "localhost");
          db_port := Some (parseInt (env_or "DB_PORT" "5432") None);
          db_user := Some (env_or "DB_USER" "postgres");
          db_password := Some (env_or "DB_PASSWORD" "");
          db_database := Some (env_or "DB_NAME" "audit_logs");
          db_ssl := Some (env_is "DB_SSL" "true");
          db_poolSize := Some (parseInt (env_or "DB_POOL_SIZE" "20") None);
          db_idleTimeoutMillis :=
            Some (parseInt (env_or "DB_IDLE_TIMEOUT" "30000") None);
          db_debug := Some (env_is "DB_DEBUG" "true") |};
     crypto := Some
       {| crypto_algorithm := Some (env_or "CRYPTO_ALGORITHM" "RSA-SHA256");
          crypto_hashAlgorithm := Some (env_or "CRYPTO_HASH_ALGORITHM" "sha256");
          crypto_privateKey := Some (env_or "CRYPTO_PRIVATE_KEY" "");
          crypto_publicKey := Some (env_or "CRYPTO_PUBLIC_KEY" "") |};
     application := Some
       {| app_maxBulkEvents := Some (parseInt (env_or "MAX_BULK_EVENTS" "1000") None);
          app_createEventTimeout :=
            Some (parseInt (env_or "CREATE_EVENT_TIMEOUT" "5000") None) |};
     partitionDays := Some (parseInt (env_or "PARTITION_DAYS" "7") None);
     sealAfterDays := Some (parseInt (env_or "SEAL_AFTER_DAYS" "30") None);
     wormEnabled := Some (env_is "WORM_ENABLED" "true");
     wormStoragePath := Some (env_or "WORM_STORAGE_PATH" "./worm-storage");
     validation := Some
       {| validateOnQuery := Some (env_is "VALIDATE_ON_QUERY" "true");
          scheduledValidationInterval :=
            Some (parseInt (env_or "VALIDATION_INTERVAL" "86400") None) |};
     context := None |}.

Definition setupAuditLog : M G (AuditLogClient W) :=
  try_catch
    ((if env_is "INIT_DB" "true"
      then run_initializeDatabase setup_schema_config
      else mret ());;
     auditLogClient ← createAuditLogClient setup_config;
     mret (setContext auditLogClient
             (env_or "PROJECT_ID" "default-project")
             (env_or "ENVIRONMENT" "development")))
    (λ error, lift (throw error)).

(** The settings without which [setupAuditLog] cannot succeed. *)
Definition setup_ready : Prop :=
  truthy (parseInt (env_or "DB_PORT" "5432") None) = true
  ∧ nonempty (process_env !! "CRYPTO_PRIVATE_KEY")
  ∧ nonempty (process_env !! "CRYPTO_PUBLIC_KEY").

End Setup.

(** An environment with the keys set, and a schema initialiser that does
    nothing, to run [setupAuditLog] on. *)
Definition sample_setup_runtime : Runtime :=
  {| process_env := {[ "CRYPTO_PRIVATE_KEY"%string := "private-pem"%string;
                       "CRYPTO_PUBLIC_KEY"%string := "public-pem"%string;
                       "PROJECT_ID"%string := ""%string ]};
     parseInt text radix :=
       if decide (text = "5432"%string) then Num 5432 else NaN |}.

Definition sample_initializeDatabase (config : DatabaseOptions) : M unit unit :=
  mret ().


(** ** The audit middleware of the example ([createAuditMiddleware])

    The middleware replaces [res.end] and calls [next()].  The replacement
    calls the original [res.end], then builds the event and hands it to the
    client inside a [try] whose [catch] only logs.  The event literal has no
    [project_id] and no [environment_id]; building its other properties
    reads the request and may throw. *)

Section AuditMiddleware.

Context `{Types} {W : Type}.

Definition api_event (fields : Payload) : CreateEventRequest :=
  {| project_id := None; environment_id := None; event_rest := fields |}.

(** The function installed as [res.end]. *)
Definition audited_end (auditLogClient : AuditLogClient W)
    (originalEnd : M W unit) (fields : result Payload) : M W unit :=
  originalEnd;;
  try_catch
    (event ← lift (properties ← fields; mret (api_event properties));
     createEvent auditLogClient event;;
     mret ())
    (λ error, mret ()).

End AuditMiddleware.


(** * Properties *)

(** ** The context guard of the client *)

Lemma truthy_Some {A} `{Truthy A} (a : A) : truthy (Some a) = truthy a.
Proof. reflexivity. Qed.

Lemma truthy_None {A} `{Truthy A} : truthy (@None A) = false.
Proof. reflexivity. Qed.

Lemma truthy_string (s : string) : truthy s = true ↔ s ≠ ""%string.
Proof. unfold truthy, string_truthy. apply bool_decide_eq_true. Qed.

Lemma truthy_unset (o : option string) : truthy o = false ↔ unset o.
Proof.
  unfold unset. destruct o as [s|].
  - rewrite truthy_Some, <- not_true_iff_false, truthy_string. split.
    + intros Hs. right. f_equal. by destruct (decide (s = ""%string)).
    + intros [?|[= ->]]; [done | tauto].
  - split; auto.
Qed.

Lemma js_or_substituted (supplied bound : option string) :
  substituted supplied bound (js_or supplied bound).
Proof.
  unfold substituted, js_or. split.
  - intros s -> Hs. rewrite truthy_Some. by apply truthy_string in Hs as ->.
  - intros Hu. by apply truthy_unset in Hu as ->.
Qed.

Section ClientProperties.

Context `{Types} {W : Type}.
Implicit Types this : AuditLogClient W.

Lemma validateContext_unset this :
  unset (projectId this) ∨ unset (environmentId this) →
  validateContext this = inl context_not_set.
Proof.
  unfold validateContext.
  intros [Hu|Hu]; apply truthy_unset in Hu; rewrite Hu; simpl; [done|].
  by rewrite orb_true_r.
Qed.

Lemma validateContext_set this p e :
  projectId this = Some p → environmentId this = Some e →
  p ≠ ""%string → e ≠ ""%string →
  validateContext this = inr ().
Proof.
  unfold validateContext. intros -> -> Hp He. rewrite !truthy_Some.
  apply truthy_string in Hp, He. by rewrite Hp, He.
Qed.

Lemma validateContext_inv this :
  validateContext this = inr () →
  ∃ p e, projectId this = Some p ∧ environmentId this = Some e
         ∧ p ≠ ""%string ∧ e ≠ ""%string.
Proof.
  unfold validateContext.
  destruct (projectId this) as [p|], (environmentId this) as [e|];
    rewrite ?truthy_Some, ?truthy_None;
    simpl; try (rewrite ?orb_true_r; discriminate).
  destruct (truthy p) eqn:Hp, (truthy e) eqn:He; simpl; try discriminate.
  intros _. exists p, e. by rewrite <- !truthy_string.
Qed.

Lemma guard_passed {A} this (m : M W A) :
  validateContext this = inr () → (lift (validateContext this);; m) = m.
Proof. by intros ->. Qed.

(** Every guarded operation starts with the guard: when it throws, the
    world is left as it was. *)
Lemma perform_guarded this op (w : W) :
  validateContext this = inl context_not_set →
  perform this op w = (inl context_not_set, w).
Proof.
  intros Hv.
  destruct op; simpl;
    unfold createEvent, createEvents, queryEvents, getEvent, validateEvents,
      sealEvents, exportToWorm, fmap, M_fmap, mbind, M_bind, lift;
    by rewrite Hv.
Qed.

End ClientProperties.

Section TracedClient.

Context `{Types} {W : Type}.
Variable svc : EventService W.
Variable this : AuditLogClient (W * list ServiceCall).
Hypothesis Hsvc : eventService this = traced svc.

Lemma fmap_logged {A B} (f : A → B) (c : ServiceCall) (m : M W A) s :
  (f <$> logged c m) s = logged c (f <$> m) s.
Proof.
  unfold fmap, M_fmap, logged. by destruct (m s.1) as [[?|?] ?].
Qed.

(** Past the guard, an operation is one call of the method it is named
    after, and answers what that call answers. *)
Lemma perform_delegated op (w : W) (log : list ServiceCall) :
  validateContext this = inr () →
  ∃ c, same_method op c = true
       ∧ perform this op (w, log) = logged c (serve svc c) (w, log).
Proof.
  intros Hv.
  destruct op as [event|events|query|eventId|s e|t|s e]; simpl;
    unfold createEvent, createEvents, queryEvents, getEvent, validateEvents,
      sealEvents, exportToWorm;
    rewrite (guard_passed _ _ Hv), Hsvc; simpl.
  - exists (CallCreateEvent (withContext this event)).
    split; [done | apply fmap_logged].
  - exists (CallCreateEvents (map (withContext this) events)).
    split; [done | apply fmap_logged].
  - eexists (CallQueryEvents _). split; [done | apply fmap_logged].
  - exists (CallGetEvent eventId (projectId this) (environmentId this)).
    split; [done | apply fmap_logged].
  - exists (CallValidateEvents (projectId this) (environmentId this) s e).
    split; [done | apply fmap_logged].
  - exists (CallSealEvents (projectId this) (environmentId this) t).
    split; [done | apply fmap_logged].
  - exists (CallExportToWorm (projectId this) (environmentId this) s e).
    split; [done | apply fmap_logged].
Qed.

Lemma withContext_forwarded event :
  event_forwarded this event (withContext this event).
Proof.
  unfold event_forwarded, withContext; simpl.
  split_and!; auto using js_or_substituted.
Qed.

End TracedClient.

(** C1 (amended).  For every public operation of [AuditLogClient]
    ([createEvent], [createEvents], [queryEvents], [getEvent],
    [validateEvents], [sealEvents], [exportToWorm]): if [projectId] or
    [environmentId] is null or the empty string, the call fails with the
    context-missing error and the event service is not invoked (its world and
    its call log are left as they were); if both were set by [setContext] to
    non-empty strings, the call is delegated: it is exactly one call of the
    service method of the same name, and answers what that call answers. *)
Theorem context_guard_or_delegate `{Types} {W : Type}
    (svc : EventService W) (this : AuditLogClient (W * list ServiceCall))
    (op : Operation) (w : W) (log : list ServiceCall) :
  eventService this = traced svc →
  (unset (projectId this) ∨ unset (environmentId this) →
   perform this op (w, log) = (inl context_not_set, (w, log)))
  ∧ (∀ p e : string, p ≠ ""%string → e ≠ ""%string →
     ∃ c, same_method op c = true
          ∧ perform (setContext this p e) op (w, log)
            = logged c (serve svc c) (w, log)).
Proof.
  intros Hsvc. split.
  - intros Hu. by apply perform_guarded, validateContext_unset.
  - intros p e Hp He. apply perform_delegated; [done|].
    by apply (validateContext_set _ p e).
Qed.

Lemma context_guard_or_delegate_witness :
  let this := @new_AuditLogClient sample_types _ (traced sample_service) in
  perform this (GetEvent "e1") (empty_store, [])
    = (inl context_not_set, (empty_store, []))
  ∧ ∃ c, same_method (GetEvent "e1") c = true
         ∧ perform (setContext this "p1" "production") (GetEvent "e1")
             (empty_store, [])
           = logged c (serve sample_service c) (empty_store, []).
Proof.
  intros this.
  destruct (@context_guard_or_delegate sample_types Store sample_service this
              (GetEvent "e1") empty_store [] eq_refl) as [Hguard Hdelegate].
  split.
  - apply Hguard. left. left. reflexivity.
  - apply Hdelegate; discriminate.
Defined.

(** C1, as stated, fails when [setContext] is given an empty string: both
    fields are then set (neither is null), yet [getEvent] throws the
    context-missing error and no call reaches the service. *)
Lemma context_guard_or_delegate_counterexample :
  let this :=
    setContext (@new_AuditLogClient sample_types _ (traced sample_service))
      "" "production" in
  projectId this = Some ""%string
  ∧ environmentId this = Some "production"%string
  ∧ perform this (GetEvent "e1") (empty_store, [])
    = (inl context_not_set, (empty_store, []))
  ∧ ¬ ∃ c, perform this (GetEvent "e1") (empty_store, [])
           = logged c (serve sample_service c) (empty_store, []).
Proof.
  assert (Hthrown :
    perform
      (setContext (@new_AuditLogClient sample_types _ (traced sample_service))
         "" "production")
      (GetEvent "e1") (empty_store, [])
    = (inl context_not_set, (empty_store, []))) by reflexivity.
  split_and!; [reflexivity | reflexivity | exact Hthrown |].
  intros [c Hc]. rewrite Hthrown in Hc.
  assert (Hlog : (logged c (serve sample_service c) (empty_store, [])).2.2 = [c]).
  { unfold logged. simpl. by destruct (serve sample_service c empty_store). }
  rewrite <- Hc in Hlog. discriminate Hlog.
Qed.

(** C2.  On a client whose context is set (the guard [validateContext]
    passes), [createEvent], [createEvents] and [queryEvents] forward to the
    event service, in one call, the request they were given in which
    [project_id] (respectively [environment_id]) is kept when the request
    supplies it non-empty, and is replaced by the bound context value when
    it is absent or empty; the other properties are copied. *)
Theorem context_defaults_forwarded `{Types} {W : Type}
    (svc : EventService W) (this : AuditLogClient (W * list ServiceCall))
    (w : W) (log : list ServiceCall) :
  eventService this = traced svc →
  validateContext this = inr () →
  (∀ event, ∃ forwarded,
     createEvent this event (w, log)
       = logged (CallCreateEvent forwarded) (svc_createEvent svc forwarded) (w, log)
     ∧ event_forwarded this event forwarded)
  ∧ (∀ events, ∃ forwarded,
       createEvents this events (w, log)
         = logged (CallCreateEvents forwarded) (svc_createEvents svc forwarded)
             (w, log)
       ∧ Forall2 (event_forwarded this) events forwarded)
  ∧ (∀ query, ∃ forwarded,
       queryEvents this query (w, log)
         = logged (CallQueryEvents forwarded) (svc_queryEvents svc forwarded)
             (w, log)
       ∧ query_forwarded this query forwarded).
Proof.
  intros Hsvc Hv. split_and!.
  - intros event. exists (withContext this event). split.
    + unfold createEvent. by rewrite (guard_passed _ _ Hv), Hsvc.
    + apply withContext_forwarded.
  - intros events. exists (map (withContext this) events). split.
    + unfold createEvents. by rewrite (guard_passed _ _ Hv), Hsvc.
    + induction events; constructor; auto using withContext_forwarded.
  - intros query. eexists. split.
    + unfold queryEvents. rewrite (guard_passed _ _ Hv), Hsvc. reflexivity.
    + unfold query_forwarded; simpl. split_and!; auto using js_or_substituted.
Qed.

Lemma context_defaults_forwarded_witness :
  let this :=
    setContext (@new_AuditLogClient sample_types _ (traced sample_service))
      "p1" "production" in
  let event :=
    {| project_id := Some ""%string; environment_id := Some "staging"%string;
       event_rest := "user.login"%string : @Payload sample_types |} in
  ∃ forwarded,
    createEvent this event (empty_store, [])
      = logged (CallCreateEvent forwarded)
          (svc_createEvent sample_service forwarded) (empty_store, [])
    ∧ event_forwarded this event forwarded.
Proof.
  intros this event.
  exact (proj1 (@context_defaults_forwarded sample_types Store sample_service
                  this empty_store [] eq_refl eq_refl) event).
Defined.

(** C9.  For every pair of strings [(p, e)] where [p] or [e] is the empty
    string, after [setContext(p, e)] every operation still fails with the
    context-missing error, the service being left untouched: an empty string
    is an unset context. *)
Theorem empty_context_is_unset `{Types} {W : Type}
    (this : AuditLogClient W) (p e : string) (op : Operation) (w : W) :
  p = ""%string ∨ e = ""%string →
  perform (setContext this p e) op w = (inl context_not_set, w).
Proof.
  intros Hempty. apply perform_guarded, validateContext_unset. simpl.
  unfold unset. destruct Hempty as [-> | ->]; auto.
Qed.

Lemma empty_context_is_unset_witness :
  perform (setContext (@new_AuditLogClient sample_types _ sample_service)
             "p1" "")
    (@SealEvents sample_types 0) empty_store
  = (inl context_not_set, empty_store).
Proof.
  apply (@empty_context_is_unset sample_types Store). right. reflexivity.
Defined.

(** ** Scoped lookup *)

Lemma sql_eq_text (a : SqlValue) (s : string) :
  sql_eq a (SqlText s) = true ↔ a = SqlText s.
Proof.
  unfold sql_eq. rewrite !andb_true_iff, !bool_decide_eq_true.
  split; [tauto | by intros ->].
Qed.

Lemma sql_eq_null (a : SqlValue) : sql_eq a NULL = false.
Proof.
  unfold sql_eq. rewrite (bool_decide_eq_false_2 (NULL ≠ NULL)) by tauto.
  by rewrite andb_false_r.
Qed.

Lemma in_scope_scoped (id : string) (project env : option string) (row : Row) :
  in_scope id project env row = true ↔
  cell row "id" = SqlText id ∧ scoped project env row.
Proof.
  unfold in_scope, scoped. rewrite !andb_true_iff.
  destruct project as [p|], env as [e|]; simpl;
    rewrite ?sql_eq_text, ?sql_eq_null;
    (split; [intros [[? ?] ?] | intros [? [? ?]]]);
    simplify_eq; repeat split; congruence.
Qed.

(** C5.  For every event id, [getEvent] on a client whose context is set
    returns, without throwing and without changing the store, either an
    event of the store that has this id and lies in the bound project and
    environment, or null, and null only when the store holds no event with
    this id in that scope. *)
Theorem getEvent_event_or_null {P F Q V D : Type}
    (this : @AuditLogClient (store_types P F Q V D) Store)
    (eventId : string) (store : Store) :
  svc_getEvent (eventService this) = store_getEvent →
  validateContext this = inr () →
  ∃ found : option Row,
    getEvent this eventId store = (inr found, store)
    ∧ match found with
      | Some event =>
          event ∈ audit_events store
          ∧ cell event "id" = SqlText eventId
          ∧ scoped (projectId this) (environmentId this) event
      | None =>
          ∀ event, event ∈ audit_events store →
            cell event "id" = SqlText eventId →
            ¬ scoped (projectId this) (environmentId this) event
      end.
Proof.
  intros Hget Hv.
  exists (get_event eventId (projectId this) (environmentId this) store).
  split.
  - unfold getEvent. by rewrite (guard_passed _ _ Hv), Hget.
  - unfold get_event.
    destruct (head _) as [event|] eqn:Hhead.
    + apply head_Some_elem_of, list_elem_of_filter in Hhead as [Hin ?].
      apply in_scope_scoped in Hin. tauto.
    + apply head_None in Hhead. intros event Hevent Hid Hscope.
      eapply filter_nil_not_elem_of; [exact Hhead | | exact Hevent].
      apply in_scope_scoped. tauto.
Qed.

Lemma getEvent_event_or_null_witness :
  let this :=
    setContext (@new_AuditLogClient sample_types _ sample_service)
      "p1" "production" in
  let store :=
    {| audit_events :=
         [sample_event "e0" "p2" "production" NULL;
          sample_event "e1" "p1" "production" NULL];
       ingest_task := []; backlog := [] |} in
  ∃ found : option Row,
    getEvent this "e1" store = (inr found, store)
    ∧ match found with
      | Some event =>
          event ∈ audit_events store
          ∧ cell event "id" = SqlText "e1"
          ∧ scoped (projectId this) (environmentId this) event
      | None =>
          ∀ event, event ∈ audit_events store →
            cell event "id" = SqlText "e1" →
            ¬ scoped (projectId this) (environmentId this) event
      end.
Proof.
  intros this store.
  exact (@getEvent_event_or_null string string (list Row) bool Z
           this "e1" store eq_refl eq_refl).
Defined.

(** ** Configuration validation *)

Lemma truthy_of_string (o : option string) : truthy (of_string o) = truthy o.
Proof. by destruct o. Qed.

Lemma truthy_of_number (o : option number) : truthy (of_number o) = truthy o.
Proof. by destruct o. Qed.

Lemma truthy_number (n : number) : truthy n = true ↔ n ≠ Num 0 ∧ n ≠ NaN.
Proof.
  destruct n as [z|]; unfold truthy, number_truthy.
  - rewrite bool_decide_eq_true. split; [intros Hz; split; congruence|].
    intros [Hz _] ->. by apply Hz.
  - split; [discriminate | tauto].
Qed.

Lemma defaulted_falsy (o : option number) : truthy o = false ↔ defaulted o.
Proof.
  unfold defaulted. destruct o as [n|]; [|by split; auto].
  rewrite truthy_Some, <- not_true_iff_false, truthy_number. split.
  - intros Hn. right.
    destruct (decide (n = Num 0)) as [->|]; [by left|].
    destruct (decide (n = NaN)) as [->|]; [by right | tauto].
  - intros [?|[[= ->]|[= ->]]]; [done | tauto..].
Qed.

(** What [validateConfig] requires, and nothing else. *)
Lemma validateConfig_accepts (config : AuditLogConfig) :
  validateConfig config = inr () ↔
  ∃ db c, database config = Some db ∧ crypto config = Some c
          ∧ truthy (db_host db) = true ∧ truthy (db_port db) = true
          ∧ truthy (db_user db) = true ∧ truthy (db_database db) = true
          ∧ truthy (crypto_privateKey c) = true
          ∧ truthy (crypto_publicKey c) = true.
Proof.
  unfold validateConfig. split.
  - destruct (database config) as [db|]; [|discriminate].
    cbn -[truthy]. rewrite !truthy_of_string, truthy_of_number.
    destruct (truthy (db_host db)) eqn:?; [|discriminate]. cbn -[truthy].
    destruct (truthy (db_port db)) eqn:?; [|discriminate]. cbn -[truthy].
    destruct (truthy (db_user db)) eqn:?; [|discriminate]. cbn -[truthy].
    destruct (truthy (db_database db)) eqn:?; [|discriminate]. cbn -[truthy].
    destruct (crypto config) as [c|]; [|discriminate]. cbn -[truthy].
    destruct (truthy (crypto_privateKey c)) eqn:?; [|discriminate].
    cbn -[truthy].
    destruct (truthy (crypto_publicKey c)) eqn:?; [|discriminate].
    intros _. exists db, c. by split_and!.
  - intros (db & c & -> & -> & Hhost & Hport & Huser & Hname & Hpriv & Hpub).
    cbn -[truthy]. rewrite !truthy_of_string, truthy_of_number.
    rewrite Hhost, Hport, Huser, Hname. cbn -[truthy].
    rewrite Hpriv. cbn -[truthy]. by rewrite Hpub.
Qed.

Lemma validateConfig_throws (config : AuditLogConfig) (e : JsError) :
  validateConfig config = inl e → e ∈ configuration_errors.
Proof.
  assert (Hin : ∀ e', bool_decide (e' ∈ configuration_errors) = true →
                      @inl JsError unit e' = inl e → e ∈ configuration_errors).
  { intros e' He' [= <-]. by apply bool_decide_eq_true in He'. }
  unfold validateConfig.
  destruct (database config) as [db|]; [|by apply Hin].
  cbn -[truthy configuration_errors].
  destruct (truthy (of_string (db_host db))); [|by apply Hin].
  cbn -[truthy configuration_errors].
  destruct (truthy (of_number (db_port db))); [|by apply Hin].
  cbn -[truthy configuration_errors].
  destruct (truthy (of_string (db_user db))); [|by apply Hin].
  cbn -[truthy configuration_errors].
  destruct (truthy (of_string (db_database db))); [|by apply Hin].
  cbn -[truthy configuration_errors].
  destruct (crypto config) as [c|]; [|by apply Hin].
  cbn -[truthy configuration_errors].
  destruct (truthy (crypto_privateKey c)); [|by apply Hin].
  cbn -[truthy configuration_errors].
  destruct (truthy (crypto_publicKey c)); [discriminate | by apply Hin].
Qed.

(** ** The factory *)

Lemma bind_returns {W A B} (m : M W A) (f : A → M W B) w b w' :
  (m ≫= f) w = (inr b, w') →
  ∃ a w1, m w = (inr a, w1) ∧ f a w1 = (inr b, w').
Proof.
  unfold mbind, M_bind. destruct (m w) as [[e|a] w1]; [discriminate|].
  intros Hf. by exists a, w1.
Qed.

Lemma lift_returns {W A} (r : result A) (w : W) a w' :
  lift r w = (inr a, w') → r = inr a ∧ w' = w.
Proof. unfold lift. by intros [= -> ->]. Qed.

Lemma logged_returns {W L A} (c : L) (m : M W A) w log a s' :
  logged c m (w, log) = (inr a, s') →
  ∃ w', m w = (inr a, w') ∧ s' = (w', log ++ [c]).
Proof.
  unfold logged; simpl. destruct (m w) as [r w'].
  intros [= -> <-]. by exists w'.
Qed.

Lemma member_returns {O A} (obj : option O) (prop : O → A) a :
  member obj prop = inr a → ∃ o, obj = Some o ∧ a = prop o.
Proof. destruct obj as [o|]; [|discriminate]. intros [= <-]. by exists o. Qed.

Section FactoryProperties.

Context `{Collaborators W G}.

(** The client the factory returns for a service: bound to the default
    context when the configuration supplies one, unbound otherwise. *)
Lemma createAuditLogClient_returns config (g g' : G) client :
  createAuditLogClient config g = (inr client, g') →
  validateConfig config = inr ()
  ∧ ∃ svc,
      (∀ p e, context config ≫= ctx_projectId = Some p →
              context config ≫= ctx_environmentId = Some e →
              p ≠ ""%string → e ≠ ""%string →
              client = setContext (new_AuditLogClient svc) p e)
      ∧ (¬ context_supplied config → client = new_AuditLogClient svc).
Proof.
  unfold createAuditLogClient. intros Hrun.
  apply bind_returns in Hrun as ([] & g0 & Hvalid & Hrun).
  apply lift_returns in Hvalid as [Hvalid ->]. split; [done|].
  repeat (apply bind_returns in Hrun as (? & ? & _ & Hrun)).
  match type of Hrun with context [new_AuditLogClient ?s] => exists s end.
  unfold context_supplied.
  destruct (context config ≫= ctx_projectId) as [p|],
    (context config ≫= ctx_environmentId) as [e|];
    try (split; [intros ? ? ? ?; discriminate
                | intros _; by injection Hrun as <- _]).
  destruct (truthy p) eqn:Hp, (truthy e) eqn:He; simpl in Hrun;
    injection Hrun as <- _.
  - split; [by intros ? ? [= <-] [= <-] | ].
    intros []. exists p, e. by rewrite <- !truthy_string.
  - split; [|done]. intros ? ? [= <-] [= <-] _ He'.
    apply truthy_string in He'. congruence.
  - split; [|done]. intros ? ? [= <-] [= <-] Hp' _.
    apply truthy_string in Hp'. congruence.
  - split; [|done]. intros ? ? [= <-] [= <-] Hp' _.
    apply truthy_string in Hp'. congruence.
Qed.

End FactoryProperties.

Lemma js_or_else_defaulted (o : option number) (d : number) :
  defaulted o → js_or_else o d = d.
Proof.
  intros Ho. apply defaulted_falsy in Ho. unfold js_or_else.
  destruct o as [n|]; [|done]. rewrite truthy_Some in Ho. by rewrite Ho.
Qed.

Lemma js_or_else_supplied (o : option number) (d n : number) :
  o = Some n → n ≠ Num 0 → n ≠ NaN → js_or_else o d = n.
Proof.
  intros -> Hz Hn. unfold js_or_else.
  by rewrite (proj2 (truthy_number n) (conj Hz Hn)).
Qed.

(** The constructor calls of a successful run of the factory, in order. *)
Lemma createAuditLogClient_log `{Types} {W G} (C : Collaborators W G)
    config (g : G) (log : list Construction) client s' :
  @createAuditLogClient _ _ _ (traced_collaborators C) config (g, log)
    = (inr client, s') →
  ∃ c, crypto config = Some c
       ∧ s'.2 = log ++
           [GetInstance (database config);
            NewCryptoService
              {| algorithm := js_or_else (crypto_algorithm c) "RSA-SHA256";
                 hashAlgorithm := js_or_else (crypto_hashAlgorithm c) "sha256";
                 privateKey := crypto_privateKey c;
                 publicKey := crypto_publicKey c |};
            GetPool;
            NewEventRepository;
            NewEventService
              (js_or_else (application config ≫= app_maxBulkEvents) (Num 1000))
              (js_or_else (application config ≫= app_createEventTimeout)
                 (Num 5000))].
Proof.
  unfold createAuditLogClient. intros Hrun.
  apply bind_returns in Hrun as ([] & s0 & Hstep & Hrun).
  apply lift_returns in Hstep as [_ ->].
  apply bind_returns in Hrun as (db & s1 & Hstep & Hrun).
  apply logged_returns in Hstep as (g1 & _ & ->).
  apply bind_returns in Hrun as (alg & s2 & Hstep & Hrun).
  apply lift_returns in Hstep as [Halg ->].
  apply member_returns in Halg as (c & Hc & ->).
  rewrite Hc in Hrun. simpl member in Hrun.
  apply bind_returns in Hrun as (? & s3 & Hstep & Hrun).
  apply lift_returns in Hstep as [[= <-] ->].
  apply bind_returns in Hrun as (? & s4 & Hstep & Hrun).
  apply lift_returns in Hstep as [[= <-] ->].
  apply bind_returns in Hrun as (? & s5 & Hstep & Hrun).
  apply lift_returns in Hstep as [[= <-] ->].
  apply bind_returns in Hrun as (cs & s6 & Hstep & Hrun).
  apply logged_returns in Hstep as (g2 & _ & ->).
  apply bind_returns in Hrun as (pool & s7 & Hstep & Hrun).
  apply logged_returns in Hstep as (g3 & _ & ->).
  apply bind_returns in Hrun as (repo & s8 & Hstep & Hrun).
  apply logged_returns in Hstep as (g4 & _ & ->).
  apply bind_returns in Hrun as (svc & s9 & Hstep & Hrun).
  apply logged_returns in Hstep as (g5 & _ & ->).
  exists c. split; [done|].
  assert (s' = (g5, ((((log ++ [GetInstance (database config)]) ++
             [NewCryptoService
                {| algorithm := js_or_else (crypto_algorithm c) "RSA-SHA256";
                   hashAlgorithm := js_or_else (crypto_hashAlgorithm c) "sha256";
                   privateKey := crypto_privateKey c;
                   publicKey := crypto_publicKey c |}]) ++ [GetPool]) ++
             [NewEventRepository]) ++
             [NewEventService
                (js_or_else (application config ≫= app_maxBulkEvents) (Num 1000))
                (js_or_else (application config ≫= app_createEventTimeout)
                   (Num 5000))])) as ->.
  { destruct (context config ≫= ctx_projectId) as [p|],
      (context config ≫= ctx_environmentId) as [e|];
      try (by injection Hrun as _ <-).
    destruct (truthy p && truthy e); by injection Hrun as _ <-. }
  simpl. by rewrite <- !app_assoc.
Qed.

Lemma createAuditLogClient_valid `{Collaborators W G}
    (config : AuditLogConfig) (g : G) :
  validateConfig config = inr () →
  ∃ c, crypto config = Some c
       ∧ createAuditLogClient config g
         = (database ← Database_getInstance (database config);
            cryptoService ← new_CryptoService
              {| algorithm := js_or_else (crypto_algorithm c) "RSA-SHA256";
                 hashAlgorithm := js_or_else (crypto_hashAlgorithm c) "sha256";
                 privateKey := crypto_privateKey c;
                 publicKey := crypto_publicKey c |};
            pool ← getPool database;
            eventRepository ← new_EventRepository pool;
            eventService ← new_EventService eventRepository cryptoService
              (js_or_else (application config ≫= app_maxBulkEvents) (Num 1000))
              (js_or_else (application config ≫= app_createEventTimeout)
                 (Num 5000));
            match context config ≫= ctx_projectId,
                  context config ≫= ctx_environmentId with
            | Some projectId, Some environmentId =>
                if truthy projectId && truthy environmentId
                then mret (setContext (new_AuditLogClient eventService)
                             projectId environmentId)
                else mret (new_AuditLogClient eventService)
            | _, _ => mret (new_AuditLogClient eventService)
            end) g.
Proof.
  intros Hvalid.
  pose proof Hvalid as (db & c & _ & Hc & _)%validateConfig_accepts.
  exists c. split; [done|].
  unfold createAuditLogClient. rewrite Hvalid, Hc. unfold mbind, M_bind, lift.
  simpl. by destruct (Database_getInstance (database config) g) as [[?|?] ?].
Qed.

(** C3 (amended).  For every configuration accepted by
    [createAuditLogClient], the [EventService] is constructed once, last of
    the collaborators, with: max bulk events equal to 1000 when
    [application.maxBulkEvents] is omitted (or is 0 or NaN), and equal to the
    supplied value when it is supplied and is neither 0 nor NaN; create-event
    timeout equal to 5000 when [application.createEventTimeout] is omitted
    (or is 0 or NaN), and equal to the supplied value when it is supplied and
    is neither 0 nor NaN. *)
Theorem eventService_settings `{Types} {W G : Type} (C : Collaborators W G)
    (config : AuditLogConfig) (g : G) (log : list Construction)
    (client : AuditLogClient W) (s' : G * list Construction) :
  @createAuditLogClient _ _ _ (traced_collaborators C) config (g, log)
    = (inr client, s') →
  ∃ options maxBulkEvents createEventTimeout,
    s'.2 = log ++ [GetInstance (database config); NewCryptoService options;
                   GetPool; NewEventRepository;
                   NewEventService maxBulkEvents createEventTimeout]
    ∧ (defaulted (application config ≫= app_maxBulkEvents) →
       maxBulkEvents = Num 1000)
    ∧ (defaulted (application config ≫= app_createEventTimeout) →
       createEventTimeout = Num 5000)
    ∧ (∀ n, application config ≫= app_maxBulkEvents = Some n →
            n ≠ Num 0 → n ≠ NaN → maxBulkEvents = n)
    ∧ (∀ n, application config ≫= app_createEventTimeout = Some n →
            n ≠ Num 0 → n ≠ NaN → createEventTimeout = n).
Proof.
  intros Hrun. apply createAuditLogClient_log in Hrun as (c & _ & Hlog).
  eexists _, _, _. split; [exact Hlog|].
  split_and!; eauto using js_or_else_defaulted, js_or_else_supplied.
Qed.

Lemma eventService_settings_witness :
  ∃ options maxBulkEvents createEventTimeout,
    [GetInstance (Some sample_database);
     NewCryptoService
       {| algorithm := "RSA-SHA256"; hashAlgorithm := "sha256";
          privateKey := Some "PRIVATE KEY"%string;
          publicKey := Some "PUBLIC KEY"%string |};
     GetPool; NewEventRepository; NewEventService (Num 1000) (Num 250)]
    = [] ++ [GetInstance (Some sample_database); NewCryptoService options;
             GetPool; NewEventRepository;
             NewEventService maxBulkEvents createEventTimeout]
    ∧ maxBulkEvents = Num 1000
    ∧ createEventTimeout = Num 250.
Proof.
  pose (config :=
    sample_config
      (Some {| app_maxBulkEvents := None;
               app_createEventTimeout := Some (Num 250) |}) None).
  destruct (@eventService_settings sample_types Store unit sample_collaborators
              config () []
              (@new_AuditLogClient sample_types _ sample_service)
              ((), [GetInstance (Some sample_database);
                    NewCryptoService
                      {| algorithm := "RSA-SHA256"; hashAlgorithm := "sha256";
                         privateKey := Some "PRIVATE KEY"%string;
                         publicKey := Some "PUBLIC KEY"%string |};
                    GetPool; NewEventRepository;
                    NewEventService (Num 1000) (Num 250)])
              eq_refl)
    as (options & maxBulkEvents & createEventTimeout
        & Hlog & HmaxDefault & _ & _ & Htimeout).
  exists options, maxBulkEvents, createEventTimeout. split_and!.
  - exact Hlog.
  - apply HmaxDefault. by left.
  - by apply Htimeout.
Defined.

(** C3, as stated, fails when a supplied value is 0: with
    [maxBulkEvents: 0] and [createEventTimeout: 250] both options are
    supplied, the configuration is accepted, and the [EventService] is
    constructed with max bulk events 1000, not with the supplied 0. *)
Lemma eventService_settings_counterexample :
  let config :=
    sample_config
      (Some {| app_maxBulkEvents := Some (Num 0);
               app_createEventTimeout := Some (Num 250) |}) None in
  application config ≫= app_maxBulkEvents = Some (Num 0)
  ∧ application config ≫= app_createEventTimeout = Some (Num 250)
  ∧ ∃ client,
      @createAuditLogClient _ _ _ (traced_collaborators sample_collaborators)
        config ((), [])
      = (inr client,
         ((), [GetInstance (Some sample_database);
               NewCryptoService
                 {| algorithm := "RSA-SHA256"; hashAlgorithm := "sha256";
                    privateKey := Some "PRIVATE KEY"%string;
                    publicKey := Some "PUBLIC KEY"%string |};
               GetPool; NewEventRepository;
               NewEventService (Num 1000) (Num 250)])).
Proof.
  split_and!; [reflexivity..|]. eexists. reflexivity.
Qed.

(** The call is none of the calls listed. *)
Ltac not_among :=
  let Hin := fresh "Hin" in
  intros ? Hin;
  repeat (apply elem_of_cons in Hin as [Hin|Hin]; [discriminate|]);
  by apply elem_of_nil in Hin.

(** C4.  [createAuditLogClient] fails with a configuration error, before any
    collaborator is constructed, for every configuration in which
    [crypto.privateKey] or [crypto.publicKey] is missing (or empty).  For
    every configuration that passes the validation, once the database
    instance is obtained the [CryptoService] is constructed, once, with
    algorithm 'RSA-SHA256' whenever [crypto.algorithm] is omitted and hash
    algorithm 'sha256' whenever [crypto.hashAlgorithm] is omitted, and with
    the two keys as configured; and whenever a client is returned, the
    constructions were these five, in this order. *)
Theorem crypto_keys_and_defaults `{Types} {W G : Type} (C : Collaborators W G)
    (config : AuditLogConfig) (g : G) (log : list Construction) :
  (unset (crypto config ≫= crypto_privateKey)
   ∨ unset (crypto config ≫= crypto_publicKey) →
   ∃ e, e ∈ configuration_errors
        ∧ @createAuditLogClient _ _ _ (traced_collaborators C) config (g, log)
          = (inl e, (g, log)))
  ∧ (validateConfig config = inr () →
     ∀ instance g1,
       @Database_getInstance _ _ _ C (database config) g = (inr instance, g1) →
       ∃ options outcome g' rest,
         @createAuditLogClient _ _ _ (traced_collaborators C) config (g, log)
         = (outcome,
            (g', log ++ [GetInstance (database config);
                         NewCryptoService options] ++ rest))
         ∧ (∀ others, NewCryptoService others ∉ rest)
         ∧ (crypto config ≫= crypto_algorithm = None →
            algorithm options = "RSA-SHA256"%string)
         ∧ (crypto config ≫= crypto_hashAlgorithm = None →
            hashAlgorithm options = "sha256"%string)
         ∧ privateKey options = crypto config ≫= crypto_privateKey
         ∧ publicKey options = crypto config ≫= crypto_publicKey)
  ∧ (∀ client s',
       @createAuditLogClient _ _ _ (traced_collaborators C) config (g, log)
         = (inr client, s') →
       ∃ options maxBulkEvents createEventTimeout,
         s'.2 = log ++ [GetInstance (database config); NewCryptoService options;
                        GetPool; NewEventRepository;
                        NewEventService maxBulkEvents createEventTimeout]
         ∧ (crypto config ≫= crypto_algorithm = None →
            algorithm options = "RSA-SHA256"%string)
         ∧ (crypto config ≫= crypto_hashAlgorithm = None →
            hashAlgorithm options = "sha256"%string)
         ∧ privateKey options = crypto config ≫= crypto_privateKey
         ∧ publicKey options = crypto config ≫= crypto_publicKey).
Proof.
  split_and!.
  - intros Hmissing.
    destruct (validateConfig config) as [e|[]] eqn:Hvalid.
    + exists e. split; [by eapply validateConfig_throws|].
      unfold createAuditLogClient, mbind, M_bind, lift. by rewrite Hvalid.
    + apply validateConfig_accepts in Hvalid
        as (db & c & _ & Hc & _ & _ & _ & _ & Hpriv & Hpub).
      rewrite Hc in Hmissing. simpl in Hmissing.
      destruct Hmissing as [Hu|Hu]; apply truthy_unset in Hu; congruence.
  - intros Hvalid instance g1 Hinstance.
    destruct (@createAuditLogClient_valid _ _ _ (traced_collaborators C)
                config (g, log) Hvalid) as (c & Hc & ->).
    rewrite Hc. simpl.
    exists {| algorithm := js_or_else (crypto_algorithm c) "RSA-SHA256";
              hashAlgorithm := js_or_else (crypto_hashAlgorithm c) "sha256";
              privateKey := crypto_privateKey c;
              publicKey := crypto_publicKey c |}.
    unfold mbind, M_bind, logged. simpl. rewrite Hinstance. cbn [fst snd].
    destruct (@new_CryptoService _ _ _ C _ g1) as [[e|cryptoService] g2];
      cbn [fst snd].
    { exists (inl e), g2, []. rewrite <- app_assoc.
      split_and!; [done | not_among | by intros ->.. | done | done]. }
    destruct (@getPool _ _ _ C instance g2) as [[e|pool] g3]; cbn [fst snd].
    { exists (inl e), g3, [GetPool]. rewrite <- !app_assoc.
      split_and!; [done | not_among | by intros ->.. | done | done]. }
    destruct (@new_EventRepository _ _ _ C pool g3)
      as [[e|eventRepository] g4]; cbn [fst snd].
    { exists (inl e), g4, [GetPool; NewEventRepository].
      rewrite <- !app_assoc.
      split_and!; [done | not_among | by intros ->.. | done | done]. }
    destruct (@new_EventService _ _ _ C eventRepository cryptoService _ _ g4)
      as [[e|svc] g5]; cbn [fst snd].
    { eexists (inl e), g5, [GetPool; NewEventRepository; NewEventService _ _].
      rewrite <- !app_assoc.
      split_and!; [done | not_among | by intros ->.. | done | done]. }
    destruct (context config) as [ctx|]; simpl;
      [destruct (ctx_projectId ctx) as [p|], (ctx_environmentId ctx) as [e|];
       simpl; try destruct (truthy p && truthy e)|];
      (eexists _, g5, [GetPool; NewEventRepository; NewEventService _ _];
       rewrite <- !app_assoc;
       split_and!; [reflexivity | not_among | by intros ->.. | done | done]).
  - intros client s' Hrun.
    apply createAuditLogClient_log in Hrun as (c & Hc & Hlog).
    eexists _, _, _. split; [exact Hlog|].
    rewrite Hc. simpl. split_and!; try done; by intros ->.
Qed.

Lemma crypto_keys_and_defaults_witness :
  let missing :=
    {| database := Some sample_database;
       crypto := Some {| crypto_algorithm := None; crypto_hashAlgorithm := None;
                         crypto_privateKey := None;
                         crypto_publicKey := Some "PUBLIC KEY"%string |};
       application := None; partitionDays := None; sealAfterDays := None;
       wormEnabled := None; wormStoragePath := None; validation := None;
       context := None |} in
  (∃ e, e ∈ configuration_errors
        ∧ @createAuditLogClient _ _ _ (traced_collaborators sample_collaborators)
            missing ((), [])
          = (inl e, ((), [])))
  ∧ @createAuditLogClient _ _ _ (traced_collaborators sample_collaborators)
      (sample_config None None) ((), [])
    = (inr (@new_AuditLogClient sample_types _ sample_service),
       ((), [GetInstance (Some sample_database);
             NewCryptoService
               {| algorithm := "RSA-SHA256"; hashAlgorithm := "sha256";
                  privateKey := Some "PRIVATE KEY"%string;
                  publicKey := Some "PUBLIC KEY"%string |};
             GetPool; NewEventRepository;
             NewEventService (Num 1000) (Num 5000)]))
  ∧ ∃ options outcome rest,
      @createAuditLogClient _ _ _ (traced_collaborators sample_collaborators)
        (sample_config None None) ((), [])
      = (outcome,
         ((), [] ++ [GetInstance (Some sample_database);
                     NewCryptoService options] ++ rest))
      ∧ algorithm options = "RSA-SHA256"%string
      ∧ hashAlgorithm options = "sha256"%string.
Proof.
  intros missing. split_and!.
  - apply (@crypto_keys_and_defaults sample_types Store unit
             sample_collaborators missing () []).
    left. left. reflexivity.
  - reflexivity.
  - destruct (proj1 (proj2 (@crypto_keys_and_defaults sample_types Store unit
                              sample_collaborators (sample_config None None)
                              () []))
                eq_refl (Some sample_database) () eq_refl)
      as (options & outcome & [] & rest & Hrun & _ & Halgorithm & Hhash & _).
    exists options, outcome, rest. split_and!.
    + exact Hrun.
    + by apply Halgorithm.
    + by apply Hhash.
Defined.

(** C8.  [createAuditLogClient] binds the default context on the client it
    returns if and only if the configuration supplies both
    [context.projectId] and [context.environmentId], non-empty.  It returns
    a client whenever the configuration passes the validation and the five
    collaborators are constructed.  When the context is supplied, the
    client carries these two values and passes the context guard; when
    either is absent (or empty), the client is returned with both fields
    null, every operation fails with the context-missing error, and a later
    [setContext] with non-empty values lifts the guard. *)
Theorem default_context_binding `{Collaborators W G}
    (config : AuditLogConfig) (g : G) :
  (validateConfig config = inr () →
   ∀ svc g', constructed config g svc g' →
     ∃ client,
       createAuditLogClient config g = (inr client, g')
       ∧ eventService client = svc)
  ∧ (∀ client g',
       createAuditLogClient config g = (inr client, g') →
       (context_supplied config →
        projectId client = context config ≫= ctx_projectId
        ∧ environmentId client = context config ≫= ctx_environmentId
        ∧ validateContext client = inr ())
       ∧ (¬ context_supplied config →
          projectId client = None
          ∧ environmentId client = None
          ∧ (∀ op w, perform client op w = (inl context_not_set, w))
          ∧ (∀ p e : string, p ≠ ""%string → e ≠ ""%string →
             validateContext (setContext client p e) = inr ()))).
Proof.
  split.
  - intros Hvalid svc g'
      (instance & g1 & cryptoService & g2 & pool & g3 & eventRepository & g4
       & Hinstance & Hcrypto & Hpool & Hrepository & Hservice).
    destruct (createAuditLogClient_valid config g Hvalid) as (c & Hc & ->).
    rewrite Hc in Hcrypto. simpl in Hcrypto.
    unfold mbind in Hservice. unfold mbind, M_bind.
    rewrite Hinstance, Hcrypto, Hpool, Hrepository, Hservice.
    destruct (context config) as [ctx|]; simpl;
      [destruct (ctx_projectId ctx) as [p|], (ctx_environmentId ctx) as [e|];
       simpl; try destruct (truthy p && truthy e)|];
      (eexists; split; reflexivity).
  - intros client g' Hrun.
    apply createAuditLogClient_returns in Hrun
      as (_ & svc & Hbound & Hunbound).
    split.
    + intros (p & e & Hp & He & Hpne & Hene).
      rewrite (Hbound p e Hp He Hpne Hene), Hp, He. split_and!; try done.
      by apply (validateContext_set _ p e).
    + intros Hnone. rewrite (Hunbound Hnone). split_and!; try done.
      * intros op w. apply perform_guarded, validateContext_unset.
        left. by left.
      * intros p e Hp He. by apply (validateContext_set _ p e).
Qed.

Lemma default_context_binding_witness :
  let supplied :=
    sample_config None
      (Some {| ctx_projectId := Some "p1"%string;
               ctx_environmentId := Some "production"%string |}) in
  let partial :=
    sample_config None
      (Some {| ctx_projectId := Some "p1"%string;
               ctx_environmentId := None |}) in
  (∃ client,
     @createAuditLogClient sample_types Store unit sample_collaborators
       supplied () = (inr client, ())
     ∧ eventService client = sample_service
     ∧ projectId client = Some "p1"%string
     ∧ environmentId client = Some "production"%string
     ∧ validateContext client = inr ())
  ∧ (∃ client,
       @createAuditLogClient sample_types Store unit sample_collaborators
         partial () = (inr client, ())
       ∧ eventService client = sample_service
       ∧ projectId client = None
       ∧ environmentId client = None
       ∧ (∀ op w, perform client op w = (inl context_not_set, w))).
Proof.
  intros supplied partial.
  assert (Hconstructed : ∀ config,
    crypto config = Some sample_crypto → application config = None →
    @constructed sample_types Store unit sample_collaborators config ()
      sample_service ()).
  { intros config Hcrypto Happlication. unfold constructed.
    rewrite Hcrypto, Happlication.
    by eexists _, (), _, (), _, (), _, (). }
  split.
  - destruct (@default_context_binding sample_types Store unit
                sample_collaborators supplied ()) as [Hreturns Hbinding].
    destruct (Hreturns eq_refl sample_service ()
                (Hconstructed supplied eq_refl eq_refl))
      as (client & Hrun & Hservice).
    exists client. split; [exact Hrun|]. split; [exact Hservice|].
    apply (proj1 (Hbinding client () Hrun)).
    exists "p1"%string, "production"%string. by split_and!.
  - destruct (@default_context_binding sample_types Store unit
                sample_collaborators partial ()) as [Hreturns Hbinding].
    destruct (Hreturns eq_refl sample_service ()
                (Hconstructed partial eq_refl eq_refl))
      as (client & Hrun & Hservice).
    exists client. split; [exact Hrun|]. split; [exact Hservice|].
    destruct (proj2 (Hbinding client () Hrun)) as (Hp & He & Hguard & _).
    { intros (p & e & _ & He & _). discriminate He. }
    by split_and!.
Defined.

(** C10.  [validateConfig] never requires [database.password]: every
    configuration whose database section supplies a non-empty [host], a
    [port] (neither 0 nor NaN), a non-empty [user] and a non-empty
    [database], and whose crypto section supplies both keys (non-empty), is
    valid whatever [password] is, absent or empty included; and among the
    database options only [host], [port], [user] and [database] are looked
    at: two configurations that agree on these four and on the crypto
    section get the same verdict. *)
Theorem password_not_required (config : AuditLogConfig)
    (db : DatabaseOptions) (c : CryptoConfig)
    (host user name priv pub : string) (port : number) :
  database config = Some db → crypto config = Some c →
  db_host db = Some host → host ≠ ""%string →
  db_port db = Some port → port ≠ Num 0 → port ≠ NaN →
  db_user db = Some user → user ≠ ""%string →
  db_database db = Some name → name ≠ ""%string →
  crypto_privateKey c = Some priv → priv ≠ ""%string →
  crypto_publicKey c = Some pub → pub ≠ ""%string →
  validateConfig config = inr ()
  ∧ ∀ config' db',
      database config' = Some db' → crypto config' = Some c →
      db_host db' = db_host db → db_port db' = db_port db →
      db_user db' = db_user db → db_database db' = db_database db →
      validateConfig config' = inr ().
Proof.
  intros Hdb Hc Hhost ? Hport ? ? Huser ? Hname ? Hpriv ? Hpub ?.
  assert (Hvalid : ∀ config' db',
    database config' = Some db' → crypto config' = Some c →
    db_host db' = db_host db → db_port db' = db_port db →
    db_user db' = db_user db → db_database db' = db_database db →
    validateConfig config' = inr ()).
  { intros config' db' Hdb' Hc' Hh Hp Hu Hn.
    apply validateConfig_accepts. exists db', c.
    rewrite Hh, Hp, Hu, Hn, Hhost, Hport, Huser, Hname, Hpriv, Hpub.
    rewrite !truthy_Some. split_and!; try done.
    - by apply truthy_string.
    - by apply truthy_number.
    - by apply truthy_string.
    - by apply truthy_string.
    - by apply truthy_string.
    - by apply truthy_string. }
  split; [by apply (Hvalid config db) | exact Hvalid].
Qed.

Lemma password_not_required_witness :
  validateConfig (sample_config None None) = inr ()
  ∧ validateConfig
      {| database :=
           Some {| db_host := Some "localhost"%string; db_port := Some (Num 5432);
                   db_user := Some "postgres"%string;
                   db_password := Some ""%string;
                   db_database := Some "audit_logs"%string; db_ssl := None;
                   db_poolSize := None; db_idleTimeoutMillis := None;
                   db_debug := None |};
         crypto := Some sample_crypto;
         application := None; partitionDays := None; sealAfterDays := None;
         wormEnabled := None; wormStoragePath := None; validation := None;
         context := None |}
    = inr ().
Proof.
  destruct (password_not_required (sample_config None None)
              sample_database sample_crypto
              "localhost" "postgres" "audit_logs" "PRIVATE KEY" "PUBLIC KEY"
              (Num 5432)
              eq_refl eq_refl
              eq_refl ltac:(discriminate) eq_refl ltac:(discriminate)
              ltac:(discriminate) eq_refl ltac:(discriminate)
              eq_refl ltac:(discriminate) eq_refl ltac:(discriminate)
              eq_refl ltac:(discriminate)) as [Habsent Hother].
  split; [exact Habsent|].
  by eapply Hother.
Defined.

(** ** [INSERT] *)

Lemma lookup_column_elem (columns : list Column) (name : string) (c : Column) :
  lookup_column columns name = Some c → c ∈ columns ∧ col_name c = name.
Proof.
  unfold lookup_column. intros Hc.
  apply head_Some_elem_of, list_elem_of_filter in Hc. tauto.
Qed.

Lemma lookup_column_named (columns : list Column) (name : string) :
  name ∈ col_name <$> columns → is_Some (lookup_column columns name).
Proof.
  intros (c & -> & Hc)%list_elem_of_fmap. unfold lookup_column.
  destruct (filter _ columns) as [|c' cs] eqn:Hfilter; [|by eexists].
  by destruct (filter_nil_not_elem_of _ _ c Hfilter).
Qed.

(** Where every column of that name admits null. *)
Lemma nullable_columns (columns : list Column) (name : string) :
  forallb (λ c, implb (bool_decide (col_name c = name)) (nullable c)) columns
  = true →
  ∀ c, c ∈ columns → col_name c = name → nullable c = true.
Proof.
  rewrite forallb_forall. intros Hall c Hc Hname.
  apply list_elem_of_In in Hc. specialize (Hall c Hc).
  by rewrite bool_decide_eq_true_2 in Hall.
Qed.

Section InsertProperties.

Context `{T : DataTypes}.

(** The cell of a row under a name is the stored value of the column of
    that name. *)
Lemma build_row_lookup (columns : list Column) (supplied : Row) (serial : Z)
    (name : string) :
  build_row columns supplied serial !! name
  = (λ c, default NULL (stored_value supplied serial c))
      <$> lookup_column columns name.
Proof.
  unfold build_row, lookup_column.
  induction columns as [|c columns IH]; [done|].
  rewrite fmap_cons, list_to_map_cons.
  destruct (decide (col_name c = name)) as [<-|Hc].
  - by rewrite lookup_insert_eq, filter_cons_True.
  - by rewrite lookup_insert_ne, filter_cons_False.
Qed.

Lemma insert_accepts (columns : list Column) (supplied : Row) (serial : Z)
    (rows rows' : list Row) :
  insert columns supplied serial rows = Some rows' →
  rows' = rows ++ [build_row columns supplied serial]
  ∧ dom supplied ⊆ list_to_set (col_name <$> columns)
  ∧ (∀ c, c ∈ columns → column_ok supplied serial c = true)
  ∧ primary_key_of columns (build_row columns supplied serial)
    ∉ primary_key_of columns <$> rows.
Proof.
  unfold insert.
  destruct (bool_decide (dom supplied ⊆ _)) eqn:Hdom; [|discriminate].
  destruct (forallb _ columns) eqn:Hok; [|discriminate].
  destruct (bool_decide (_ ∉ _)) eqn:Hkey; [|discriminate].
  intros [= <-]. split_and!.
  - done.
  - by apply bool_decide_eq_true in Hdom.
  - intros c Hc. rewrite forallb_forall in Hok. by apply Hok, list_elem_of_In.
  - by apply bool_decide_eq_true in Hkey.
Qed.

(** The converse: a row that passes the three checks is appended. *)
Lemma insert_checked (columns : list Column) (supplied : Row) (serial : Z)
    (rows : list Row) :
  bool_decide (dom supplied ⊆ list_to_set (col_name <$> columns))
  && forallb (column_ok supplied serial) columns
  && bool_decide (primary_key_of columns (build_row columns supplied serial)
                  ∉ primary_key_of columns <$> rows)
  = true →
  insert columns supplied serial rows
  = Some (rows ++ [build_row columns supplied serial]).
Proof. intros Hchecks. unfold insert. by rewrite Hchecks. Qed.

(** What an accepted row holds under the name of a column. *)
Lemma insert_cell (columns : list Column) (supplied : Row) (serial : Z)
    (rows rows' : list Row) (name : string) (c : Column) :
  insert columns supplied serial rows = Some rows' →
  lookup_column columns name = Some c →
  ∃ row v, rows' = rows ++ [row]
           ∧ stored_value supplied serial c = Some v
           ∧ cell row name = v
           ∧ (nullable c = false → v ≠ NULL).
Proof.
  intros (-> & _ & Hok & _)%insert_accepts Hc.
  pose proof (lookup_column_elem _ _ _ Hc) as [Hin _].
  specialize (Hok c Hin). unfold column_ok in Hok.
  destruct (stored_value supplied serial c) as [v|] eqn:Hv; [|discriminate].
  eexists _, v. split_and!; [done..| |].
  - unfold cell. by rewrite build_row_lookup, Hc; simpl; rewrite Hv.
  - intros Hnn ->. by rewrite Hnn, bool_decide_eq_true_2 in Hok.
Qed.

(** An accepted row is not null at a column that does not admit null. *)
Lemma insert_not_null (columns : list Column) (supplied : Row) (serial : Z)
    (rows rows' : list Row) (name : string) :
  insert columns supplied serial rows = Some rows' →
  nullable <$> lookup_column columns name = Some false →
  ∃ row, rows' = rows ++ [row] ∧ cell row name ≠ NULL.
Proof.
  intros Hins Hcol.
  destruct (lookup_column columns name) as [c|] eqn:Hc; [|discriminate].
  injection Hcol as Hnn.
  destruct (insert_cell _ _ _ _ _ _ _ Hins Hc) as (row & v & -> & _ & <- & Hv).
  exists row. split; [done | by apply Hv].
Qed.

Lemma insert_required (columns : list Column) (supplied : Row) (serial : Z)
    (rows rows' : list Row) (names : list string) :
  Forall (λ name, nullable <$> lookup_column columns name = Some false) names →
  insert columns supplied serial rows = Some rows' →
  ∃ row, rows' = rows ++ [row] ∧ Forall (λ name, cell row name ≠ NULL) names.
Proof.
  intros Hnames Hins.
  pose proof (insert_accepts _ _ _ _ _ Hins) as (Hrows & _).
  eexists. split; [exact Hrows|].
  apply Forall_forall. intros name Hname.
  rewrite Forall_forall in Hnames.
  destruct (insert_not_null _ _ _ _ _ name Hins (Hnames name Hname))
    as (row & Hrow & Hcell).
  rewrite Hrows in Hrow. by apply app_inj_tail in Hrow as [_ ->].
Qed.

(** A column the [INSERT] does not name holds its default. *)
Lemma insert_default (columns : list Column) (supplied : Row) (serial : Z)
    (rows rows' : list Row) (name : string) (c : Column) (d : SqlValue) :
  lookup_column columns name = Some c →
  col_default c = Some d →
  input (value_type (col_type c)) d = Some d →
  supplied !! name = None →
  insert columns supplied serial rows = Some rows' →
  ∃ row, rows' = rows ++ [row] ∧ cell row name = d.
Proof.
  intros Hc Hdefault Hinput Hunnamed Hins.
  destruct (insert_cell _ _ _ _ _ _ _ Hins Hc) as (row & v & -> & Hv & <- & _).
  exists row. split; [done|].
  apply lookup_column_elem in Hc as [_ <-].
  unfold stored_value, column_value in Hv.
  rewrite Hunnamed, Hdefault, Hinput in Hv. by injection Hv.
Qed.

(** A property of every accepted row holds of every row [INSERT]s have
    put in the table. *)
Lemma inserted_Forall (P : Row → Prop) (columns : list Column) :
  (∀ supplied serial rows rows',
     insert columns supplied serial rows = Some rows' →
     ∃ row, rows' = rows ++ [row] ∧ P row) →
  ∀ rows, inserted columns rows → Forall P rows.
Proof.
  intros Hrow rows. induction 1 as [|supplied serial rows rows' _ IH Hins].
  - constructor.
  - destruct (Hrow _ _ _ _ Hins) as (row & -> & HP).
    apply Forall_app. split; [exact IH | by apply Forall_singleton].
Qed.

(** Where a row is accepted, the row that differs from it by a null in a
    column that admits null is accepted too. *)
Lemma insert_null (columns : list Column) (supplied : Row) (serial : Z)
    (rows rows' : list Row) (name : string) :
  (∀ c, c ∈ columns → col_name c = name → nullable c = true) →
  name ∈ col_name <$> columns →
  insert columns supplied serial rows = Some rows' →
  ∃ row,
    insert columns (<[name := NULL]> supplied) serial rows = Some (rows ++ [row])
    ∧ cell row name = NULL
    ∧ ∀ other, other ≠ name →
        cell row other = cell (build_row columns supplied serial) other.
Proof.
  intros Hnullable Hname (_ & Hdom & Hok & Hkey)%insert_accepts.
  assert (Hkept : ∀ c, col_name c ≠ name →
    stored_value (<[name := NULL]> supplied) serial c
    = stored_value supplied serial c).
  { intros c Hc. unfold stored_value, column_value.
    by rewrite lookup_insert_ne. }
  assert (Hnulled : ∀ c, col_name c = name →
    stored_value (<[name := NULL]> supplied) serial c = Some NULL).
  { intros c <-. unfold stored_value, column_value.
    rewrite lookup_insert_eq. apply input_NULL. }
  assert (Hcells : ∀ other, other ≠ name →
    cell (build_row columns (<[name := NULL]> supplied) serial) other
    = cell (build_row columns supplied serial) other).
  { intros other Hother. unfold cell. rewrite !build_row_lookup.
    destruct (lookup_column columns other) as [c|] eqn:Hc; [|done]. simpl.
    apply lookup_column_elem in Hc as [_ Hc]. rewrite Hkept; [done|].
    congruence. }
  exists (build_row columns (<[name := NULL]> supplied) serial). split_and!.
  - apply insert_checked. rewrite !andb_true_iff. split_and!.
    + apply bool_decide_eq_true. rewrite dom_insert_L.
      apply union_least; [|done].
      by apply singleton_subseteq_l, elem_of_list_to_set.
    + apply forallb_forall. intros c Hc%list_elem_of_In. unfold column_ok.
      destruct (decide (col_name c = name)) as [Hc'|Hc'].
      * by rewrite (Hnulled c Hc'), (Hnullable c Hc Hc').
      * rewrite (Hkept c Hc'). apply (Hok c Hc).
    + apply bool_decide_eq_true.
      replace (primary_key_of columns
                 (build_row columns (<[name := NULL]> supplied) serial))
        with (primary_key_of columns (build_row columns supplied serial));
        [done|].
      unfold primary_key_of. apply list_fmap_ext.
      intros i c Hc%list_elem_of_lookup_2.
      apply list_elem_of_filter in Hc as [Hkeyed Hc].
      symmetry. apply Hcells. intros Hc'.
      specialize (Hnullable c Hc Hc'). unfold nullable in Hnullable.
      rewrite Hkeyed in Hnullable. by destruct (col_not_null c).
  - destruct (lookup_column_named _ _ Hname) as [c Hc].
    unfold cell. rewrite build_row_lookup, Hc. simpl.
    apply lookup_column_elem in Hc as [_ Hc]. by rewrite (Hnulled c Hc).
  - exact Hcells.
Qed.

End InsertProperties.

(** ** The events table *)

(** C6 (amended).  In the [audit_events] table as [initializeDatabase]
    defines it, the [hash] and [signature] columns do not admit null and
    the [previous_hash] column does.  Hence every event that [INSERT]s have
    put in the table carries a hash and a signature, and the table accepts
    a null [previous_hash] in any event it would accept otherwise, genesis
    or not: the schema does not keep a null [previous_hash] to the genesis
    event of a stream. *)
Theorem audit_events_chain_columns `{T : DataTypes} :
  table_definition schema_script "audit_events" = Some audit_events_columns
  ∧ nullable <$> lookup_column audit_events_columns "hash" = Some false
  ∧ nullable <$> lookup_column audit_events_columns "signature" = Some false
  ∧ nullable <$> lookup_column audit_events_columns "previous_hash" = Some true
  ∧ (∀ events, inserted audit_events_columns events →
       Forall (λ event, cell event "hash" ≠ NULL
                        ∧ cell event "signature" ≠ NULL) events)
  ∧ (∀ supplied serial events events',
       insert audit_events_columns supplied serial events = Some events' →
       ∃ event,
         insert audit_events_columns (<["previous_hash" := NULL]> supplied)
           serial events = Some (events ++ [event])
         ∧ cell event "previous_hash" = NULL
         ∧ cell event "hash" ≠ NULL
         ∧ cell event "signature" ≠ NULL).
Proof.
  assert (Hsigned : ∀ supplied serial events events',
    insert audit_events_columns supplied serial events = Some events' →
    ∃ event, events' = events ++ [event]
             ∧ cell event "hash" ≠ NULL ∧ cell event "signature" ≠ NULL).
  { intros supplied serial events events' Hins.
    destruct (insert_not_null _ _ _ _ _ "hash" Hins eq_refl)
      as (event & -> & Hhash).
    destruct (insert_not_null _ _ _ _ _ "signature" Hins eq_refl)
      as (event' & Hevent' & Hsignature).
    apply app_inj_tail in Hevent' as [_ <-]. by exists event. }
  split_and!; [reflexivity.. | |].
  - by apply inserted_Forall.
  - intros supplied serial events events' Hins.
    destruct (insert_null audit_events_columns supplied serial events events'
                "previous_hash") as (event & Hnulled & Hprevious & _).
    + by apply nullable_columns.
    + clear. compute_done.
    + exact Hins.
    + exists event. split_and!; [exact Hnulled | exact Hprevious | |];
        destruct (Hsigned _ _ _ _ Hnulled) as (event' & Hevent' & ? & ?);
        apply app_inj_tail in Hevent' as [_ <-]; assumption.
Qed.

(** Two events of one stream, both with a null [previous_hash], are
    accepted one after the other. *)
Lemma sample_stream_accepted :
  ∃ first second,
    insert (T:=sample_data_types) audit_events_columns
      (sample_audit_event sample_id_1 "p1" "production" NULL) 1 []
    = Some [first]
    ∧ insert (T:=sample_data_types) audit_events_columns
        (sample_audit_event sample_id_2 "p1" "production" NULL) 1 [first]
      = Some [first; second]
    ∧ cell second "previous_hash" = NULL
    ∧ cell first "project_id" = cell second "project_id"
    ∧ cell first "environment_id" = cell second "environment_id".
Proof.
  exists (build_row (T:=sample_data_types) audit_events_columns
            (sample_audit_event sample_id_1 "p1" "production" NULL) 1),
         (build_row (T:=sample_data_types) audit_events_columns
            (sample_audit_event sample_id_2 "p1" "production" NULL) 1).
  split_and!.
  - apply (insert_checked (T:=sample_data_types) _ _ _ []).
    vm_compute. reflexivity.
  - apply (insert_checked (T:=sample_data_types) _ _ _ [_]).
    vm_compute. reflexivity.
  - vm_compute. reflexivity.
  - vm_compute. reflexivity.
  - vm_compute. reflexivity.
Qed.

(** The table accepts a second event of a stream with a null
    [previous_hash]: an event that is not the genesis event of its stream
    has [previous_hash] null. *)
Lemma audit_events_chain_columns_counterexample :
  ∃ first second,
    insert (T:=sample_data_types) audit_events_columns
      (sample_audit_event sample_id_1 "p1" "production" NULL) 1 []
    = Some [first]
    ∧ insert (T:=sample_data_types) audit_events_columns
        (sample_audit_event sample_id_2 "p1" "production" NULL) 1 [first]
      = Some [first; second]
    ∧ cell second "previous_hash" = NULL
    ∧ ¬ genesis [first; second] 1.
Proof.
  destruct sample_stream_accepted
    as (first & second & Hfirst & Hsecond & Hprevious & Hproject & Henv).
  exists first, second. split_and!; [done..|].
  intros Hgenesis. by eapply (Hgenesis 0%nat); [lia | reflexivity.. |].
Qed.

Lemma audit_events_chain_columns_witness :
  ∃ first second,
    inserted (T:=sample_data_types) audit_events_columns [first; second]
    ∧ cell first "hash" ≠ NULL ∧ cell second "signature" ≠ NULL.
Proof.
  destruct sample_stream_accepted
    as (first & second & Hfirst & Hsecond & _).
  exists first, second.
  assert (Hinserted :
    inserted (T:=sample_data_types) audit_events_columns [first; second]).
  { eapply inserted_row; [|exact Hsecond].
    eapply inserted_row; [apply inserted_empty | exact Hfirst]. }
  split; [exact Hinserted|].
  destruct (audit_events_chain_columns (T:=sample_data_types))
    as (_ & _ & _ & _ & Hsigned & _).
  specialize (Hsigned _ Hinserted).
  apply Forall_cons in Hsigned as [[Hhash _] Hsigned].
  apply Forall_cons in Hsigned as [[_ Hsignature] _].
  by split.
Defined.

(** ** The backlog *)

Lemma fresh_row_progress (max_attempts : Z) (row : Row) :
  0 < max_attempts → cell row "attempts" = SqlInt 0 →
  backlog_progress max_attempts row = true.
Proof.
  unfold backlog_progress. intros Hmax ->.
  rewrite (bool_decide_eq_true_2 (0 < max_attempts)) by done.
  apply orb_true_r.
Qed.

(** C7 (amended).  In the [backlog] table as [initializeDatabase] defines
    it, [processed] has the default [FALSE] and [attempts] the default 0,
    so every row created by an [INSERT] that names neither of the two
    columns starts with [processed = false] and [attempts = 0], and
    satisfies the backlog-progress invariant ([processed = true] or
    [attempts < MAX_ATTEMPTS]) for every positive [MAX_ATTEMPTS]. *)
Theorem backlog_row_defaults `{T : DataTypes} :
  table_definition schema_script "backlog" = Some backlog_columns
  ∧ col_default <$> lookup_column backlog_columns "processed"
    = Some (Some (SqlBool false))
  ∧ col_default <$> lookup_column backlog_columns "attempts"
    = Some (Some (SqlInt 0))
  ∧ (∀ supplied serial rows rows',
       supplied !! "processed" = None → supplied !! "attempts" = None →
       insert backlog_columns supplied serial rows = Some rows' →
       ∃ row, rows' = rows ++ [row]
              ∧ cell row "processed" = SqlBool false
              ∧ cell row "attempts" = SqlInt 0
              ∧ ∀ max_attempts, 0 < max_attempts →
                  backlog_progress max_attempts row = true).
Proof.
  split_and!; [reflexivity..|].
  intros supplied serial rows rows' Hprocessed Hattempts Hins.
  destruct (insert_default backlog_columns supplied serial rows rows'
              "processed" _ (SqlBool false) eq_refl eq_refl
              (input_BOOLEAN false) Hprocessed Hins)
    as (row & -> & Hp).
  destruct (insert_default backlog_columns supplied serial rows _
              "attempts" _ (SqlInt 0) eq_refl eq_refl
              (input_INTEGER 0 ltac:(lia)) Hattempts Hins)
    as (row' & Hrow' & Ha).
  apply app_inj_tail in Hrow' as [_ <-].
  exists row. split_and!; try done.
  intros max_attempts Hmax. by apply fresh_row_progress.
Qed.

(** An [INSERT] that names [attempts] is stored with the value it names:
    a row created with [attempts = 10] is accepted, and breaks the
    invariant for [MAX_ATTEMPTS = 10], the default of the specification. *)
Lemma backlog_row_defaults_counterexample :
  ∃ row,
    insert (T:=sample_data_types) backlog_columns
      (<["attempts" := SqlInt 10]> sample_task) 1 [] = Some [row]
    ∧ cell row "processed" = SqlBool false
    ∧ cell row "attempts" = SqlInt 10
    ∧ backlog_progress 10 row = false.
Proof.
  exists (build_row (T:=sample_data_types) backlog_columns
            (<["attempts" := SqlInt 10]> sample_task) 1).
  split_and!.
  - apply (insert_checked (T:=sample_data_types) _ _ _ []).
    vm_compute. reflexivity.
  - vm_compute. reflexivity.
  - vm_compute. reflexivity.
  - vm_compute. reflexivity.
Qed.

Lemma backlog_row_defaults_witness :
  ∃ row,
    insert (T:=sample_data_types) backlog_columns sample_task 1 [] = Some [row]
    ∧ cell row "processed" = SqlBool false
    ∧ cell row "attempts" = SqlInt 0
    ∧ backlog_progress 10 row = true.
Proof.
  assert (Hins :
    insert (T:=sample_data_types) backlog_columns sample_task 1 []
    = Some ([] ++ [build_row (T:=sample_data_types) backlog_columns
                     sample_task 1])).
  { apply (insert_checked (T:=sample_data_types) _ _ _ []).
    vm_compute. reflexivity. }
  destruct (backlog_row_defaults (T:=sample_data_types))
    as (_ & _ & _ & Hdefaults).
  destruct (Hdefaults sample_task 1 [] _ eq_refl eq_refl Hins)
    as (row & Hrow & Hp & Ha & Hprogress).
  apply app_inj_tail in Hrow as [_ <-].
  eexists. split_and!; [exact Hins | exact Hp | exact Ha |].
  apply Hprogress. lia.
Defined.

(** * Further properties of the client *)

Lemma validateContext_cases `{Types} {W : Type} (this : AuditLogClient W) :
  validateContext this = inl context_not_set ∨ validateContext this = inr ().
Proof.
  unfold validateContext.
  destruct (negb (truthy (projectId this)) || negb (truthy (environmentId this)));
    auto.
Qed.

Lemma nonempty_truthy (o : option string) : truthy o = true ↔ nonempty o.
Proof.
  unfold nonempty. destruct o as [s|].
  - rewrite truthy_Some, truthy_string. split; [by exists s|].
    by intros (? & [= <-] & ?).
  - split; [discriminate | by intros (? & ? & _)].
Qed.

Lemma js_or_nonempty (supplied bound : option string) :
  nonempty bound → nonempty (js_or supplied bound).
Proof.
  intros Hbound. unfold js_or.
  destruct (truthy supplied) eqn:Hs; [by apply nonempty_truthy | done].
Qed.

Lemma js_or_idempotent (supplied bound : option string) :
  js_or (js_or supplied bound) bound = js_or supplied bound.
Proof.
  unfold js_or. destruct (truthy supplied) eqn:Hs; [by rewrite Hs|].
  by destruct (truthy bound).
Qed.

(** X1.  [close] is not guarded: whatever the context of the client, bound
    or not, it makes exactly one call, of the [close] method of the service,
    and answers what that call answers; with no context bound, every other
    operation stops at the guard while [close] goes through. *)
Theorem close_needs_no_context `{Types} {W : Type}
    (svc : EventService W) (this : AuditLogClient (W * list ServiceCall))
    (op : Operation) (w : W) (log : list ServiceCall) :
  eventService this = traced svc →
  close this (w, log) = logged CallClose (svc_close svc) (w, log)
  ∧ (unset (projectId this) ∨ unset (environmentId this) →
     (perform this op (w, log)).2 = (w, log)
     ∧ (close this (w, log)).2.2 = log ++ [CallClose]).
Proof.
  intros Hsvc.
  assert (Hclose : close this (w, log) = logged CallClose (svc_close svc) (w, log)).
  { unfold close. by rewrite Hsvc. }
  split; [exact Hclose|]. intros Hunset. split.
  - by rewrite (perform_guarded this op (w, log)
                 (validateContext_unset this Hunset)).
  - rewrite Hclose. unfold logged. simpl. by destruct (svc_close svc w).
Qed.

Lemma close_needs_no_context_witness :
  let this := @new_AuditLogClient sample_types _ (traced sample_service) in
  close this (empty_store, [])
    = logged CallClose (svc_close sample_service) (empty_store, [])
  ∧ (perform this (GetEvent "e1") (empty_store, [])).2 = (empty_store, [])
  ∧ (close this (empty_store, [])).2.2 = [CallClose].
Proof.
  intros this.
  destruct (@close_needs_no_context sample_types Store sample_service this
              (GetEvent "e1") empty_store [] eq_refl) as [Hclose Hunset].
  split; [exact Hclose|]. apply Hunset. left. by left.
Defined.

(** X2.  After [setContext(p, e)] with non-empty [p] and [e], whatever was
    bound before, [getEvent], [validateEvents], [sealEvents] and
    [exportToWorm] each make one call of the method of the same name with
    the project id [p], the environment id [e] and the caller's own
    arguments, unchanged. *)
Theorem scoped_operations_forward_context `{Types} {W : Type}
    (svc : EventService W) (this : AuditLogClient (W * list ServiceCall))
    (p e : string) (w : W) (log : list ServiceCall) :
  eventService this = traced svc →
  p ≠ ""%string → e ≠ ""%string →
  let bound := setContext this p e in
  (∀ eventId,
     getEvent bound eventId (w, log)
     = logged (CallGetEvent eventId (Some p) (Some e))
         (svc_getEvent svc eventId (Some p) (Some e)) (w, log))
  ∧ (∀ startTime endTime,
       validateEvents bound startTime endTime (w, log)
       = logged (CallValidateEvents (Some p) (Some e) startTime endTime)
           (svc_validateEvents svc (Some p) (Some e) startTime endTime) (w, log))
  ∧ (∀ upToTime,
       sealEvents bound upToTime (w, log)
       = logged (CallSealEvents (Some p) (Some e) upToTime)
           (svc_sealEvents svc (Some p) (Some e) upToTime) (w, log))
  ∧ (∀ startTime endTime,
       exportToWorm bound startTime endTime (w, log)
       = logged (CallExportToWorm (Some p) (Some e) startTime endTime)
           (svc_exportToWorm svc (Some p) (Some e) startTime endTime) (w, log)).
Proof.
  intros Hsvc Hp He bound.
  assert (Hv : validateContext bound = inr ())
    by by apply (validateContext_set _ p e).
  assert (Hbound : eventService bound = traced svc) by done.
  unfold getEvent, validateEvents, sealEvents, exportToWorm.
  split_and!; intros; by rewrite (guard_passed _ _ Hv), Hbound.
Qed.

Lemma scoped_operations_forward_context_witness :
  let stale :=
    setContext (@new_AuditLogClient sample_types _ (traced sample_service))
      "old" "staging" in
  let upToTime : @Date sample_types := 0 in
  sealEvents (setContext stale "p1" "production") upToTime (empty_store, [])
  = logged (CallSealEvents (Some "p1"%string) (Some "production"%string) upToTime)
      (svc_sealEvents sample_service (Some "p1"%string)
         (Some "production"%string) upToTime)
      (empty_store, []).
Proof.
  intros stale upToTime.
  apply (@scoped_operations_forward_context sample_types Store sample_service
           stale "p1" "production" empty_store [] eq_refl);
    discriminate.
Defined.

Lemma withContext_scoped `{Types} {W : Type} (this : AuditLogClient W) event :
  validateContext this = inr () →
  nonempty (project_id (withContext this event))
  ∧ nonempty (environment_id (withContext this event)).
Proof.
  intros Hv. apply validateContext_inv in Hv as (p & e & Hp & He & ? & ?).
  unfold withContext; simpl. rewrite Hp, He.
  split; apply js_or_nonempty; by eexists.
Qed.

(** X3.  No unscoped call ever reaches the event service: whatever the
    client, its context, the operation and its arguments, the operation
    makes at most one service call, and every call it makes carries
    non-empty project and environment ids (in each request of a batch, for
    [createEvents]). *)
Theorem service_calls_are_scoped `{Types} {W : Type}
    (svc : EventService W) (this : AuditLogClient (W * list ServiceCall))
    (op : Operation) (w : W) (log : list ServiceCall) :
  eventService this = traced svc →
  ∃ calls,
    (perform this op (w, log)).2.2 = log ++ calls
    ∧ (length calls ≤ 1)%nat
    ∧ Forall call_scoped calls.
Proof.
  intros Hsvc. destruct (validateContext_cases this) as [Hv|Hv].
  - exists []. rewrite (perform_guarded this op _ Hv). simpl.
    rewrite app_nil_r. split_and!; [done | lia | constructor].
  - assert (Hlogged : ∀ A (c : ServiceCall) (m : M W A) (f : A → Response),
      ((f <$> logged c m) (w, log)).2.2 = log ++ [c]).
    { intros A c m f. rewrite fmap_logged. unfold logged. simpl.
      by destruct ((f <$> m) w). }
    pose proof (validateContext_inv this Hv) as (p & e & Hp & He & Hpne & Hene).
    assert (Hscope : nonempty (projectId this) ∧ nonempty (environmentId this)).
    { rewrite Hp, He. split; by eexists. }
    destruct op as [event|events|query|eventId|s t|t|s t]; simpl;
      unfold createEvent, createEvents, queryEvents, getEvent, validateEvents,
        sealEvents, exportToWorm;
      rewrite (guard_passed _ _ Hv), Hsvc; simpl;
      eexists [_]; (split; [apply Hlogged|]); (split; [simpl; lia|]);
      apply Forall_singleton; simpl; try exact Hscope.
    + by apply withContext_scoped.
    + apply Forall_forall. intros forwarded Hin.
      apply list_elem_of_In, in_map_iff in Hin as (event & <- & _).
      by apply withContext_scoped.
    + destruct Hscope. split; by apply js_or_nonempty.
Qed.

(** X4.  The context is applied once and for all: a request that
    [createEvent] has already forwarded, given to [createEvent] again, is
    forwarded as it is, so re-submitting what the service received is
    harmless. *)
Theorem forwarded_request_is_stable `{Types} {W : Type}
    (this : AuditLogClient W) (event : CreateEventRequest) (w : W) :
  withContext this (withContext this event) = withContext this event
  ∧ createEvent this (withContext this event) w = createEvent this event w.
Proof.
  assert (Hstable : withContext this (withContext this event)
                    = withContext this event).
  { unfold withContext; simpl. by rewrite !js_or_idempotent. }
  split; [exact Hstable|]. unfold createEvent. by rewrite Hstable.
Qed.

(** * Further properties of the configuration and of the factory *)

Lemma not_defaulted_truthy (o : option number) : ¬ defaulted o → truthy o = true.
Proof.
  intros Hn. destruct (truthy o) eqn:Ho; [done|].
  by apply defaulted_falsy in Ho.
Qed.

Local Ltac validate_with_facts :=
  unfold validateConfig;
  repeat match goal with
         | H : database _ = _ |- _ => rewrite H
         | H : crypto _ = _ |- _ => rewrite H
         end;
  cbn -[truthy]; rewrite ?truthy_of_string, ?truthy_of_number;
  repeat match goal with
         | H : truthy ?x = _ |- context [truthy ?x] => rewrite H; cbn -[truthy]
         end;
  try reflexivity.

(** X5.  [validateConfig] reports the first check that fails, in the order
    database section, [host], [port], [user], [database], crypto section,
    [privateKey], [publicKey], each with its own message; an empty string
    counts as missing, and so does a port that is 0 or NaN; when no check
    fails the configuration is valid. *)
Theorem validateConfig_first_error (config : AuditLogConfig) :
  (database config = None →
   validateConfig config = inl (Error "Database configuration is required"))
  ∧ ∀ db, database config = Some db →
      (unset (db_host db) →
       validateConfig config = inl (Error "Database.host is required"))
      ∧ (nonempty (db_host db) → defaulted (db_port db) →
         validateConfig config = inl (Error "Database.port is required"))
      ∧ (nonempty (db_host db) → ¬ defaulted (db_port db) →
         unset (db_user db) →
         validateConfig config = inl (Error "Database.user is required"))
      ∧ (nonempty (db_host db) → ¬ defaulted (db_port db) →
         nonempty (db_user db) → unset (db_database db) →
         validateConfig config = inl (Error "Database.database is required"))
      ∧ (nonempty (db_host db) → ¬ defaulted (db_port db) →
         nonempty (db_user db) → nonempty (db_database db) →
         (crypto config = None →
          validateConfig config = inl (Error "Crypto configuration is required"))
         ∧ ∀ c, crypto config = Some c →
             (unset (crypto_privateKey c) →
              validateConfig config = inl (Error "Crypto.privateKey is required"))
             ∧ (nonempty (crypto_privateKey c) → unset (crypto_publicKey c) →
                validateConfig config
                = inl (Error "Crypto.publicKey is required"))
             ∧ (nonempty (crypto_privateKey c) →
                nonempty (crypto_publicKey c) →
                validateConfig config = inr ())).
Proof.
  split; [intros Hdb; by validate_with_facts|].
  intros db Hdb. split_and!.
  - intros Hhost%truthy_unset. by validate_with_facts.
  - intros Hhost%nonempty_truthy Hport%defaulted_falsy. by validate_with_facts.
  - intros Hhost%nonempty_truthy Hport%not_defaulted_truthy Huser%truthy_unset.
    by validate_with_facts.
  - intros Hhost%nonempty_truthy Hport%not_defaulted_truthy
      Huser%nonempty_truthy Hname%truthy_unset.
    by validate_with_facts.
  - intros Hhost%nonempty_truthy Hport%not_defaulted_truthy
      Huser%nonempty_truthy Hname%nonempty_truthy.
    split; [intros Hc; by validate_with_facts|].
    intros c Hc. split_and!.
    + intros Hpriv%truthy_unset. by validate_with_facts.
    + intros Hpriv%nonempty_truthy Hpub%truthy_unset. by validate_with_facts.
    + intros Hpriv%nonempty_truthy Hpub%nonempty_truthy. by validate_with_facts.
Qed.

Lemma validateConfig_first_error_witness :
  let zero_port :=
    {| database :=
         Some {| db_host := Some "localhost"%string; db_port := Some (Num 0);
                 db_user := None; db_password := None; db_database := None;
                 db_ssl := None; db_poolSize := None;
                 db_idleTimeoutMillis := None; db_debug := None |};
       crypto := None; application := None; partitionDays := None;
       sealAfterDays := None; wormEnabled := None; wormStoragePath := None;
       validation := None; context := None |} in
  validateConfig zero_port = inl (Error "Database.port is required").
Proof.
  intros zero_port.
  destruct (validateConfig_first_error zero_port) as [_ Hdb].
  destruct (Hdb _ eq_refl) as (_ & Hport & _).
  apply Hport.
  - by exists "localhost"%string.
  - right. by left.
Defined.

(** X6.  The factory stops at the first failure and rethrows it.  A
    configuration that [validateConfig] rejects constructs nothing; when
    [Database.getInstance] throws, the crypto service, the pool, the
    repository and the event service are never asked for; when the
    [CryptoService] constructor throws, nothing is constructed after it. *)
Theorem factory_stops_at_first_failure `{Types} {W G : Type}
    (C : Collaborators W G) (config : AuditLogConfig) (e : JsError)
    (g : G) (log : list Construction) :
  (validateConfig config = inl e →
   @createAuditLogClient _ _ _ (traced_collaborators C) config (g, log)
   = (inl e, (g, log)))
  ∧ (validateConfig config = inr () →
     ∀ g1, Database_getInstance (database config) g = (inl e, g1) →
     @createAuditLogClient _ _ _ (traced_collaborators C) config (g, log)
     = (inl e, (g1, log ++ [GetInstance (database config)])))
  ∧ (validateConfig config = inr () →
     ∀ db g1 g2 c,
       crypto config = Some c →
       Database_getInstance (database config) g = (inr db, g1) →
       new_CryptoService
         {| algorithm := js_or_else (crypto_algorithm c) "RSA-SHA256";
            hashAlgorithm := js_or_else (crypto_hashAlgorithm c) "sha256";
            privateKey := crypto_privateKey c;
            publicKey := crypto_publicKey c |} g1 = (inl e, g2) →
       @createAuditLogClient _ _ _ (traced_collaborators C) config (g, log)
       = (inl e,
          (g2, log ++ [GetInstance (database config);
                       NewCryptoService
                         {| algorithm :=
                              js_or_else (crypto_algorithm c) "RSA-SHA256";
                            hashAlgorithm :=
                              js_or_else (crypto_hashAlgorithm c) "sha256";
                            privateKey := crypto_privateKey c;
                            publicKey := crypto_publicKey c |}]))).
Proof.
  split_and!.
  - intros Hvalid. unfold createAuditLogClient, mbind, M_bind, lift.
    by rewrite Hvalid.
  - intros Hvalid g1 Hdb.
    destruct (@createAuditLogClient_valid _ _ _ (traced_collaborators C)
                config (g, log) Hvalid) as (c & _ & ->).
    unfold mbind, M_bind; simpl. unfold logged; simpl. by rewrite Hdb.
  - intros Hvalid db g1 g2 c Hc Hdb Hcrypto.
    destruct (@createAuditLogClient_valid _ _ _ (traced_collaborators C)
                config (g, log) Hvalid) as (c' & Hc' & ->).
    assert (c' = c) as -> by congruence.
    unfold mbind, M_bind; simpl. unfold logged; simpl.
    rewrite Hdb. simpl. rewrite Hcrypto. simpl. by rewrite <- app_assoc.
Qed.

Lemma factory_stops_at_first_failure_witness :
  let missing_keys :=
    {| database := Some sample_database;
       crypto := Some {| crypto_algorithm := None; crypto_hashAlgorithm := None;
                         crypto_privateKey := Some ""%string;
                         crypto_publicKey := None |};
       application := None; partitionDays := None; sealAfterDays := None;
       wormEnabled := None; wormStoragePath := None; validation := None;
       context := None |} in
  @createAuditLogClient _ _ _ (traced_collaborators sample_collaborators)
    missing_keys ((), [])
  = (inl (Error "Crypto.privateKey is required"), ((), [])).
Proof.
  intros missing_keys.
  apply (@factory_stops_at_first_failure sample_types Store unit
           sample_collaborators missing_keys
           (Error "Crypto.privateKey is required") () []).
  reflexivity.
Defined.

(** X7.  Whatever the outcome, the factory asks for its collaborators in
    one fixed order, each at most once: the database instance, the crypto
    service, the pool, the event repository, the event service.  The calls
    made are always an initial part of that sequence, and all five when a
    client is returned. *)
Theorem factory_construction_order `{Types} {W G : Type}
    (C : Collaborators W G) (config : AuditLogConfig)
    (g : G) (log : list Construction)
    (outcome : result (AuditLogClient W)) (s' : G * list Construction) :
  @createAuditLogClient _ _ _ (traced_collaborators C) config (g, log)
    = (outcome, s') →
  ∃ options maxBulkEvents createEventTimeout k,
    s'.2 = log ++ take k [GetInstance (database config);
                          NewCryptoService options; GetPool; NewEventRepository;
                          NewEventService maxBulkEvents createEventTimeout]
    ∧ (∀ client, outcome = inr client → k = 5%nat).
Proof.
  intros Hrun.
  destruct (validateConfig config) as [e|[]] eqn:Hvalid.
  - rewrite (proj1 (factory_stops_at_first_failure C config e g log) Hvalid)
      in Hrun.
    injection Hrun as <- <-.
    exists {| algorithm := ""; hashAlgorithm := ""; privateKey := None;
              publicKey := None |}, NaN, NaN, 0%nat.
    simpl. rewrite app_nil_r. by split.
  - destruct (@createAuditLogClient_valid _ _ _ (traced_collaborators C)
                config (g, log) Hvalid) as (c & _ & Heq).
    rewrite Heq in Hrun. clear Heq.
    eexists _, _, _. unfold mbind, M_bind in Hrun; simpl in Hrun.
    unfold logged in Hrun; simpl in Hrun.
    destruct (Database_getInstance (database config) g) as [[?|db] g1];
      simpl in Hrun.
    { injection Hrun as <- <-. exists 1%nat. by split. }
    destruct (new_CryptoService _ g1) as [[?|cs] g2]; simpl in Hrun.
    { injection Hrun as <- <-. exists 2%nat. simpl.
      rewrite <- app_assoc. by split. }
    destruct (getPool db g2) as [[?|pool] g3]; simpl in Hrun.
    { injection Hrun as <- <-. exists 3%nat. simpl.
      rewrite <- !app_assoc. by split. }
    destruct (new_EventRepository pool g3) as [[?|repo] g4]; simpl in Hrun.
    { injection Hrun as <- <-. exists 4%nat. simpl.
      rewrite <- !app_assoc. by split. }
    exists 5%nat. split; [|done].
    destruct (new_EventService repo cs _ _ g4) as [[?|svc] g5]; simpl in Hrun.
    { injection Hrun as <- <-. simpl. by rewrite <- !app_assoc. }
    assert (s'.2 = (((((log ++ [GetInstance (database config)]) ++
                [NewCryptoService
                   {| algorithm := js_or_else (crypto_algorithm c) "RSA-SHA256";
                      hashAlgorithm :=
                        js_or_else (crypto_hashAlgorithm c) "sha256";
                      privateKey := crypto_privateKey c;
                      publicKey := crypto_publicKey c |}]) ++ [GetPool]) ++
                [NewEventRepository]) ++
                [NewEventService
                   (js_or_else (application config ≫= app_maxBulkEvents)
                      (Num 1000))
                   (js_or_else (application config ≫= app_createEventTimeout)
                      (Num 5000))])) as ->.
    { destruct (context config) as [ctx|]; simpl in Hrun;
        [|by injection Hrun as _ <-].
      destruct (ctx_projectId ctx) as [p|], (ctx_environmentId ctx) as [e|];
        simpl in Hrun; try (by injection Hrun as _ <-).
      destruct (truthy p && truthy e); by injection Hrun as _ <-. }
    simpl. by rewrite <- !app_assoc.
Qed.

Lemma factory_construction_order_witness :
  ∃ options maxBulkEvents createEventTimeout k,
    [GetInstance (Some sample_database);
     NewCryptoService
       {| algorithm := "RSA-SHA256"; hashAlgorithm := "sha256";
          privateKey := Some "PRIVATE KEY"%string;
          publicKey := Some "PUBLIC KEY"%string |};
     GetPool; NewEventRepository; NewEventService (Num 1000) (Num 5000)]
    = [] ++ take k [GetInstance (Some sample_database);
                    NewCryptoService options; GetPool; NewEventRepository;
                    NewEventService maxBulkEvents createEventTimeout]
    ∧ k = 5%nat.
Proof.
  destruct (@factory_construction_order sample_types Store unit
              sample_collaborators (sample_config None None) () []
              (inr (@new_AuditLogClient sample_types _ sample_service))
              ((), [GetInstance (Some sample_database);
                    NewCryptoService
                      {| algorithm := "RSA-SHA256"; hashAlgorithm := "sha256";
                         privateKey := Some "PRIVATE KEY"%string;
                         publicKey := Some "PUBLIC KEY"%string |};
                    GetPool; NewEventRepository;
                    NewEventService (Num 1000) (Num 5000)])
              eq_refl)
    as (options & maxBulkEvents & createEventTimeout & k & Hlog & Hall).
  exists options, maxBulkEvents, createEventTimeout, k.
  split; [exact Hlog | by eapply Hall].
Defined.


Lemma js_or_else_unset (o : option string) (d : string) :
  unset o → js_or_else o d = d.
Proof.
  intros Hu%truthy_unset. unfold js_or_else.
  destruct o as [s|]; [|done]. rewrite truthy_Some in Hu. by rewrite Hu.
Qed.



(** X9.  The client the factory returns is wired to what the factory
    built: its event service is the one the [EventService] constructor
    returned, for the repository made over the pool of the database instance
    obtained for [config.database] and for the crypto service made from the
    crypto options; the five constructions run one after the other, each on
    the state the previous one left. *)
Theorem factory_wiring `{Collaborators W G}
    (config : AuditLogConfig) (g g' : G) (client : AuditLogClient W) :
  createAuditLogClient config g = (inr client, g') →
  ∃ instance g1 options cryptoService g2 pool g3 eventRepository g4
      maxBulkEvents createEventTimeout,
    Database_getInstance (database config) g = (inr instance, g1)
    ∧ new_CryptoService options g1 = (inr cryptoService, g2)
    ∧ getPool instance g2 = (inr pool, g3)
    ∧ new_EventRepository pool g3 = (inr eventRepository, g4)
    ∧ new_EventService eventRepository cryptoService
        maxBulkEvents createEventTimeout g4
      = (inr (eventService client), g')
    ∧ privateKey options = crypto config ≫= crypto_privateKey
    ∧ publicKey options = crypto config ≫= crypto_publicKey.
Proof.
  intros Hrun.
  destruct (validateConfig config) as [e|[]] eqn:Hvalid.
  { unfold createAuditLogClient, mbind, M_bind, lift in Hrun.
    by rewrite Hvalid in Hrun. }
  destruct (createAuditLogClient_valid config g Hvalid) as (c & Hc & Heq).
  rewrite Heq in Hrun. clear Heq.
  apply bind_returns in Hrun as (db & g1 & Hdb & Hrun).
  apply bind_returns in Hrun as (cs & g2 & Hcs & Hrun).
  apply bind_returns in Hrun as (pool & g3 & Hpool & Hrun).
  apply bind_returns in Hrun as (repo & g4 & Hrepo & Hrun).
  apply bind_returns in Hrun as (svc & g5 & Hsvc & Hrun).
  assert (eventService client = svc ∧ g' = g5) as [<- ->].
  { destruct (context config) as [ctx|]; simpl in Hrun;
      [|by injection Hrun as <- <-].
    destruct (ctx_projectId ctx) as [p|], (ctx_environmentId ctx) as [e|];
      simpl in Hrun; try (by injection Hrun as <- <-).
    destruct (truthy p && truthy e); by injection Hrun as <- <-. }
  eexists db, g1, _, cs, g2, pool, g3, repo, g4, _, _.
  split_and!; [exact Hdb | exact Hcs | exact Hpool | exact Hrepo | exact Hsvc
              | by rewrite Hc | by rewrite Hc].
Qed.

Lemma factory_wiring_witness :
  ∃ options maxBulkEvents createEventTimeout,
    @new_EventService _ _ _ sample_collaborators () options
      maxBulkEvents createEventTimeout ()
    = (inr sample_service, ())
    ∧ privateKey options = Some "PRIVATE KEY"%string.
Proof.
  destruct (@factory_wiring sample_types Store unit sample_collaborators
              (sample_config None None) () ()
              (@new_AuditLogClient sample_types _ sample_service) eq_refl)
    as (db & g1 & options & cs & g2 & pool & g3 & repo & g4 & mb & to
        & _ & Hcs & _ & _ & Hsvc & Hpriv & _).
  injection Hcs as <- _. destruct repo, g4.
  exists options, mb, to. split; [exact Hsvc | exact Hpriv].
Defined.

(** X10.  The factory reads four sections of the configuration only:
    [database], [crypto], [application] and [context].  [partitionDays],
    [sealAfterDays], [wormEnabled], [wormStoragePath] and [validation] are
    accepted and have no effect on validation, on what is constructed, or
    on the client returned. *)
Theorem unused_options_have_no_effect `{Collaborators W G}
    (config config' : AuditLogConfig) (g : G) :
  database config' = database config →
  crypto config' = crypto config →
  application config' = application config →
  context config' = context config →
  validateConfig config' = validateConfig config
  ∧ createAuditLogClient config' g = createAuditLogClient config g.
Proof.
  intros Hdb Hcrypto Happ Hctx.
  assert (Hvalid : validateConfig config' = validateConfig config).
  { unfold validateConfig. by rewrite Hdb, Hcrypto. }
  split; [exact Hvalid|].
  unfold createAuditLogClient. by rewrite Hvalid, Hdb, Hcrypto, Happ, Hctx.
Qed.

Lemma unused_options_have_no_effect_witness :
  let config' :=
    {| database := Some sample_database; crypto := Some sample_crypto;
       application := None;
       partitionDays := Some (Num 7); sealAfterDays := Some (Num 30);
       wormEnabled := Some true; wormStoragePath := Some "./worm"%string;
       validation := Some {| validateOnQuery := Some true;
                             scheduledValidationInterval := Some (Num 60) |};
       context := None |} in
  validateConfig config' = validateConfig (sample_config None None)
  ∧ @createAuditLogClient _ _ _ sample_collaborators config' ()
    = @createAuditLogClient _ _ _ sample_collaborators
        (sample_config None None) ().
Proof.
  intros config'.
  by apply (@unused_options_have_no_effect sample_types Store unit
              sample_collaborators (sample_config None None) config' ()).
Defined.

(** * Further properties of the schema *)

(** X13.  Every row the [ingest_task] table accepts names its task and its
    stream: [id], [original_event], [project_id], [environment_id],
    [new_event_id] and [received] are set; and it is unprocessed unless the
    [INSERT] says otherwise. *)
Theorem ingest_task_rows `{T : DataTypes} (supplied : Row) (serial : Z)
    (rows rows' : list Row) :
  insert ingest_task_columns supplied serial rows = Some rows' →
  ∃ row,
    rows' = rows ++ [row]
    ∧ Forall (λ name, cell row name ≠ NULL)
        ["id"; "original_event"; "project_id"; "environment_id";
         "new_event_id"; "received"]%string
    ∧ (supplied !! "processed" = None → cell row "processed" = SqlBool false).
Proof.
  intros Hins.
  assert (Hnames :
    Forall (λ name, nullable <$> lookup_column ingest_task_columns name
                    = Some false)
      ["id"; "original_event"; "project_id"; "environment_id";
       "new_event_id"; "received"]%string) by (repeat constructor).
  destruct (insert_required _ _ _ _ _ _ Hnames Hins) as (row & -> & Hrequired).
  exists row. split_and!; [done..|]. intros Hprocessed.
  destruct (insert_default ingest_task_columns supplied serial rows _
              "processed" _ (SqlBool false) eq_refl eq_refl
              (input_BOOLEAN false) Hprocessed Hins) as (row' & Hrow' & ?).
  by apply app_inj_tail in Hrow' as [_ <-].
Qed.

Lemma ingest_task_rows_witness :
  ∃ row,
    insert (T:=sample_data_types) ingest_task_columns
      (<["id" := SqlText sample_id_1]> sample_task) 1 [] = Some [row]
    ∧ cell row "project_id" ≠ NULL
    ∧ cell row "processed" = SqlBool false.
Proof.
  assert (Hins :
    insert (T:=sample_data_types) ingest_task_columns
      (<["id" := SqlText sample_id_1]> sample_task) 1 []
    = Some ([] ++ [build_row (T:=sample_data_types) ingest_task_columns
                     (<["id" := SqlText sample_id_1]> sample_task) 1])).
  { apply (insert_checked (T:=sample_data_types) _ _ _ []).
    vm_compute. reflexivity. }
  destruct (ingest_task_rows (T:=sample_data_types) _ _ _ _ Hins)
    as (row & Hrow & Hrequired & Hprocessed).
  apply app_inj_tail in Hrow as [_ <-].
  eexists. split_and!; [exact Hins | | by apply Hprocessed].
  rewrite Forall_forall in Hrequired. apply Hrequired. clear. compute_done.
Defined.

(** X14.  Every row the [audit_events] table accepts names its stream and
    its time: [id], [action], [crud], [created_at], [received_at],
    [project_id] and [environment_id] are set; and [is_anonymous] and
    [is_failure] are false unless the [INSERT] names them. *)
Theorem audit_events_rows `{T : DataTypes} (supplied : Row) (serial : Z)
    (rows rows' : list Row) :
  insert audit_events_columns supplied serial rows = Some rows' →
  ∃ row,
    rows' = rows ++ [row]
    ∧ Forall (λ name, cell row name ≠ NULL)
        ["id"; "action"; "crud"; "created_at"; "received_at";
         "project_id"; "environment_id"]%string
    ∧ (supplied !! "is_anonymous" = None →
       cell row "is_anonymous" = SqlBool false)
    ∧ (supplied !! "is_failure" = None →
       cell row "is_failure" = SqlBool false).
Proof.
  intros Hins.
  assert (Hnames :
    Forall (λ name, nullable <$> lookup_column audit_events_columns name
                    = Some false)
      ["id"; "action"; "crud"; "created_at"; "received_at";
       "project_id"; "environment_id"]%string) by (repeat constructor).
  destruct (insert_required _ _ _ _ _ _ Hnames Hins) as (row & -> & Hrequired).
  exists row. split_and!; [done..| |].
  - intros Hflag.
    destruct (insert_default audit_events_columns supplied serial rows _
                "is_anonymous" _ (SqlBool false) eq_refl eq_refl
                (input_BOOLEAN false) Hflag Hins) as (row' & Hrow' & ?).
    by apply app_inj_tail in Hrow' as [_ <-].
  - intros Hflag.
    destruct (insert_default audit_events_columns supplied serial rows _
                "is_failure" _ (SqlBool false) eq_refl eq_refl
                (input_BOOLEAN false) Hflag Hins) as (row' & Hrow' & ?).
    by apply app_inj_tail in Hrow' as [_ <-].
Qed.

Lemma audit_events_rows_witness :
  ∃ row,
    insert (T:=sample_data_types) audit_events_columns
      (sample_audit_event sample_id_1 "p1" "production" NULL) 1 []
    = Some [row]
    ∧ cell row "environment_id" ≠ NULL
    ∧ cell row "is_failure" = SqlBool false.
Proof.
  assert (Hins :
    insert (T:=sample_data_types) audit_events_columns
      (sample_audit_event sample_id_1 "p1" "production" NULL) 1 []
    = Some ([] ++ [build_row (T:=sample_data_types) audit_events_columns
                     (sample_audit_event sample_id_1 "p1" "production" NULL)
                     1])).
  { apply (insert_checked (T:=sample_data_types) _ _ _ []).
    vm_compute. reflexivity. }
  destruct (audit_events_rows (T:=sample_data_types) _ _ _ _ Hins)
    as (row & Hrow & Hrequired & _ & Hfailure).
  apply app_inj_tail in Hrow as [_ <-].
  eexists. split_and!; [exact Hins | | by apply Hfailure].
  rewrite Forall_forall in Hrequired. apply Hrequired. clear. compute_done.
Defined.

Lemma service_calls_are_scoped_witness :
  let this :=
    setContext (@new_AuditLogClient sample_types _ (traced sample_service))
      "p1" "production" in
  let batch :=
    [ {| project_id := None; environment_id := Some ""%string;
         event_rest := "user.login"%string : @Payload sample_types |};
      {| project_id := Some "p2"%string; environment_id := None;
         event_rest := "user.logout"%string : @Payload sample_types |} ] in
  ∃ calls,
    (perform this (CreateEvents batch) (empty_store, [])).2.2 = [] ++ calls
    ∧ (length calls ≤ 1)%nat
    ∧ Forall call_scoped calls.
Proof.
  intros this batch.
  exact (@service_calls_are_scoped sample_types Store sample_service this
           (CreateEvents batch) empty_store [] eq_refl).
Defined.

(** * Properties of the REST layer *)

Lemma substring_whole (s : string) :
  String.substring 0 (String.length s) s = s.
Proof. induction s as [|a s IH]; simpl; [done | by rewrite IH]. Qed.

Lemma startsWith_append (p t : string) : startsWith (p +:+ t) p = true.
Proof.
  unfold startsWith. induction p as [|a p IH]; simpl.
  - by destruct t.
  - by destruct (Ascii.ascii_dec a a).
Qed.

Lemma substring_from_append (p t : string) :
  substring_from (p +:+ t) (String.length p) = t.
Proof.
  unfold substring_from. induction p as [|a p IH]; simpl.
  - rewrite Nat.sub_0_r. apply substring_whole.
  - exact IH.
Qed.

Lemma truthy_empty_string : truthy ""%string = false.
Proof. reflexivity. Qed.

Section AuthProperties.

Context `{Runtime} `{Collaborators W G} {D : Type}.
Variable find_active_token : Database → string → M G (list TokenRow).

Lemma authenticate_with_token (req : AuthRequest) (header token : string) :
  req_authorization req = Some header → header ≠ ""%string →
  (if startsWith header "token=" then Some (substring_from header 6)
   else if startsWith header "Bearer " then Some (substring_from header 7)
        else None) = Some token →
  token ≠ ""%string →
  authenticate (D:=D) find_active_token req
  = token_lookup (D:=D) find_active_token req token.
Proof.
  intros Hheader Hne Htoken Htne. unfold authenticate, token_lookup, auth_database.
  rewrite Hheader. apply truthy_string in Hne, Htne. rewrite Hne. simpl.
  rewrite Htoken. by rewrite Htne.
Qed.

Lemma token_lookup_cases (req : AuthRequest) (token : string) (g : G) :
  ∃ g',
    (∃ response : HttpResponse D, token_lookup (D:=D) find_active_token req token g = (inr (Responded response), g')
                 ∧ (status response = 401 ∨ status response = 500))
    ∨ (∃ row, token_lookup (D:=D) find_active_token req token g
              = (inr (Next
                   {| req_authorization := req_authorization req;
                      req_params := req_params req;
                      req_body := req_body req;
                      req_token :=
                        Some {| token_projectId := row_projectId row;
                                token_environmentId := row_environmentId row;
                                token_isAdmin := false |} |}), g')).
Proof.
  unfold token_lookup, try_catch, mbind, M_bind.
  destruct (Database_getInstance auth_database g) as [[e|db] g1].
  { exists g1. left. eexists. split; [reflexivity | by right]. }
  destruct (find_active_token db token g1) as [[e|[|row rows]] g2].
  - exists g2. left. eexists. split; [reflexivity | by right].
  - exists g2. left. eexists. split; [reflexivity | by left].
  - exists g2. right. by exists row.
Qed.

(** Every way [authenticate] can end. *)
Lemma authenticate_cases (req : AuthRequest) (g : G) :
  ∃ g',
    (∃ response : HttpResponse D, authenticate (D:=D) find_active_token req g
                 = (inr (Responded response), g')
                 ∧ (status response = 401 ∨ status response = 500))
    ∨ (∃ row, authenticate (D:=D) find_active_token req g
              = (inr (Next
                   {| req_authorization := req_authorization req;
                      req_params := req_params req;
                      req_body := req_body req;
                      req_token :=
                        Some {| token_projectId := row_projectId row;
                                token_environmentId := row_environmentId row;
                                token_isAdmin := false |} |}), g')).
Proof.
  destruct (req_authorization req) as [header|] eqn:Hheader; cycle 1.
  { exists g. left. eexists. unfold authenticate. rewrite Hheader.
    split; [reflexivity | by left]. }
  destruct (truthy header) eqn:Hne; cycle 1.
  { exists g. left. eexists. unfold authenticate. rewrite Hheader.
    unfold try_catch. rewrite Hne. split; [reflexivity | by left]. }
  destruct (if startsWith header "token=" then Some (substring_from header 6)
            else if startsWith header "Bearer "
                 then Some (substring_from header 7) else None)
    as [token|] eqn:Htoken; cycle 1.
  { exists g. left. eexists. unfold authenticate. rewrite Hheader.
    unfold try_catch. rewrite Hne. simpl. rewrite Htoken.
    split; [reflexivity | by left]. }
  destruct (truthy token) eqn:Htne; cycle 1.
  { exists g. left. eexists. unfold authenticate. rewrite Hheader.
    unfold try_catch. rewrite Hne. simpl. rewrite Htoken, Htne.
    split; [reflexivity | by left]. }
  apply truthy_string in Hne, Htne.
  rewrite (authenticate_with_token req header token Hheader Hne Htoken Htne).
  rewrite <- Hheader. apply token_lookup_cases.
Qed.

End AuthProperties.

Section AuthMiddleware.

Context `{Runtime} `{Collaborators W G} {D : Type}.
Variable find_active_token : Database → string → M G (list TokenRow).

(** X15.  [authenticate] looks up exactly what follows the scheme: for a
    header ["token=" ++ t] or ["Bearer " ++ t], an empty [t] is answered 401
    'No token provided' without any access to the database, and a non-empty
    [t] is the one parameter of the token lookup, whose result decides the
    outcome (no row: 401; a row: [next()] with that row's project and
    environment; a throw: 500). *)
Theorem authenticate_token_extraction (req : AuthRequest)
    (scheme t : string) (g : G) :
  scheme = "token="%string ∨ scheme = "Bearer "%string →
  req_authorization req = Some (scheme +:+ t) →
  (t = ""%string →
   authenticate (D:=D) find_active_token req g
   = (inr (Responded (reply 401 "No token provided")), g))
  ∧ (t ≠ ""%string →
     authenticate (D:=D) find_active_token req g
     = token_lookup find_active_token req t g).
Proof.
  intros Hscheme Hheader.
  assert (Hextract :
    (if startsWith (scheme +:+ t) "token="
     then Some (substring_from (scheme +:+ t) 6)
     else if startsWith (scheme +:+ t) "Bearer "
          then Some (substring_from (scheme +:+ t) 7) else None) = Some t).
  { destruct Hscheme as [-> | ->].
    - rewrite startsWith_append.
      change 6%nat with (String.length "token=").
      by rewrite substring_from_append.
    - change (startsWith ("Bearer " +:+ t) "token=") with false.
      rewrite startsWith_append.
      change 7%nat with (String.length "Bearer ").
      by rewrite substring_from_append. }
  assert (Hne : scheme +:+ t ≠ ""%string) by by destruct Hscheme as [-> | ->].
  split.
  - intros ->. unfold authenticate, try_catch. rewrite Hheader.
    apply truthy_string in Hne. rewrite Hne. simpl. by rewrite Hextract.
  - intros Ht.
    by rewrite (authenticate_with_token find_active_token req _ t Hheader Hne
                  Hextract Ht).
Qed.

(** X16.  [authenticate] never throws.  It either answers 401 or 500, or
    calls [next()] with the request unchanged but for a token that is never
    an admin token.  A missing or empty header, and a header with neither
    scheme, are answered 401 without any access to the database. *)
Theorem authenticate_outcomes (req : AuthRequest) (g : G) :
  (∃ handled g',
     authenticate (D:=D) find_active_token req g = (inr handled, g')
     ∧ match handled with
       | Responded response => status response = 401 ∨ status response = 500
       | Next req' =>
           req_authorization req' = req_authorization req
           ∧ req_params req' = req_params req
           ∧ req_body req' = req_body req
           ∧ ∃ token, req_token req' = Some token ∧ token_isAdmin token = false
       end)
  ∧ (unset (req_authorization req) →
     authenticate (D:=D) find_active_token req g
     = (inr (Responded (reply 401 "Authorization header missing")), g))
  ∧ (∀ header, req_authorization req = Some header → header ≠ ""%string →
       startsWith header "token=" = false →
       startsWith header "Bearer " = false →
       authenticate (D:=D) find_active_token req g
       = (inr (Responded (reply 401 "Invalid authorization format")), g)).
Proof.
  split_and!.
  - destruct (authenticate_cases (D:=D) find_active_token req g)
      as (g' & [(response & -> & Hstatus) | (row & ->)]).
    + by exists (Responded response), g'.
    + eexists (Next _), g'. split; [reflexivity|]. simpl.
      split_and!; try done. by eexists.
  - intros [Hheader|Hheader]; unfold authenticate, try_catch;
      by rewrite Hheader.
  - intros header Hheader Hne%truthy_string Htoken Hbearer.
    unfold authenticate, try_catch. rewrite Hheader, Hne. simpl.
    by rewrite Htoken, Hbearer.
Qed.

(** X17.  The project routes are closed: [authenticate] never sets
    [isAdmin], and [requireAdmin] lets only admin tokens through, so every
    request to a project route is answered 401, 403 or 500 by the
    middlewares, and the controller is never run. *)
Theorem project_routes_never_reach_controller
    (controller : AuthRequest → M G (HttpResponse D))
    (req : AuthRequest) (g : G) :
  ∃ response g',
    projectRoutes find_active_token controller req g = (inr response, g')
    ∧ (status response = 401 ∨ status response = 403 ∨ status response = 500)
    ∧ ∀ controller',
        projectRoutes find_active_token controller' req g = (inr response, g').
Proof.
  unfold projectRoutes. simpl. unfold mbind, M_bind.
  destruct (authenticate_cases (D:=D) find_active_token req g)
    as (g' & [(response & -> & Hstatus) | (row & ->)]).
  - exists response, g'. split_and!; [done | tauto | done].
  - simpl. eexists _, g'. split_and!; [reflexivity | simpl; tauto | done].
Qed.

(** X18.  Tenant isolation on the environment and token routes: a request
    either reaches the controller, and then with the token of a project
    that is the one the route names ([req.params.projectId]), parameters
    and body unchanged, or it is answered 401, 403 or 500 by the middlewares,
    whatever the controller is. *)
Theorem project_scoped_routes_isolate_tenants
    (controller : AuthRequest → M G (HttpResponse D))
    (req : AuthRequest) (g : G) :
  (∃ req' g1,
     admitted req req'
     ∧ projectScopedRoutes find_active_token controller req g = controller req' g1)
  ∨ (∃ response g',
       projectScopedRoutes find_active_token controller req g
       = (inr response, g')
       ∧ (status response = 401 ∨ status response = 403
          ∨ status response = 500)
       ∧ ∀ controller',
           projectScopedRoutes find_active_token controller' req g
           = (inr response, g')).
Proof.
  unfold projectScopedRoutes. simpl. unfold mbind, M_bind.
  destruct (authenticate_cases (D:=D) find_active_token req g)
    as (g' & [(response & -> & Hstatus) | (row & ->)]).
  - right. exists response, g'. split_and!; [done | tauto | done].
  - simpl. unfold validateProjectAccess. simpl.
    destruct (bool_decide (Some (row_projectId row) ≠ req_params req !! "projectId"))
      eqn:Hproject.
    + right. eexists _, g'. split_and!; [reflexivity | simpl; tauto | done].
    + left. eexists _, g'. split; [|reflexivity].
      apply bool_decide_eq_false in Hproject.
      unfold admitted. simpl. split_and!; try done.
      eexists. split_and!; [reflexivity | done |]. simpl.
      by destruct (decide (Some (row_projectId row)
                           = req_params req !! "projectId")).
Qed.

End AuthMiddleware.

Lemma authenticate_token_extraction_witness :
  authenticate (D:=string) (H:=sample_runtime) (H1:=sample_collaborators)
    sample_find_active_token
    (sample_request (Some "Bearer aud_secret"%string) "p1") ()
  = token_lookup (H:=sample_runtime) (H1:=sample_collaborators)
      sample_find_active_token
      (sample_request (Some "Bearer aud_secret"%string) "p1") "aud_secret" ().
Proof.
  apply (authenticate_token_extraction (H:=sample_runtime)
           (H1:=sample_collaborators) sample_find_active_token
           (sample_request (Some "Bearer aud_secret"%string) "p1")
           "Bearer " "aud_secret" ()).
  - by right.
  - reflexivity.
  - discriminate.
Defined.

Lemma authenticate_outcomes_witness :
  authenticate (D:=string) (H:=sample_runtime) (H1:=sample_collaborators)
    sample_find_active_token
    (sample_request (Some "Basic dXNlcjpwdw=="%string) "p1") ()
  = (inr (Responded (reply 401 "Invalid authorization format")), ()).
Proof.
  destruct (authenticate_outcomes (D:=string) (H:=sample_runtime)
              (H1:=sample_collaborators) sample_find_active_token
              (sample_request (Some "Basic dXNlcjpwdw=="%string) "p1") ())
    as (_ & _ & Hformat).
  by apply (Hformat "Basic dXNlcjpwdw=="%string).
Defined.

Section ControllerProperties.

Context {G P : Type}.

Lemma try_catch_returns {A} (body : M G A) (handler : JsError → M G A)
    (fallback : A) (g : G) :
  (∀ e g', handler e g' = (inr fallback, g')) →
  ∃ a g', try_catch body handler g = (inr a, g')
          ∧ (body g = (inr a, g') ∨ (a = fallback ∧ ∃ e, body g = (inl e, g'))).
Proof.
  intros Hhandler. unfold try_catch.
  destruct (body g) as [[e|a] g'] eqn:Hbody.
  - exists fallback, g'. split; [apply Hhandler|]. right. eauto.
  - exists a, g'. auto.
Qed.

(** X19.  [createProject] validates before it calls the service: a body
    whose [name] is absent, null, empty, 0 or false is answered 400 'Project
    name is required' and the service is not called; a request with no body
    at all is answered 500, not 400, the read of [name] throwing inside the
    [try]; otherwise the service is called once with the body as it is, and
    the answer is 201 with the project, or 500 when the service throws. *)
Theorem createProject_validates_name (projectService : ProjectService G P)
    (req : AuthRequest) (g : G) :
  (req_body req = None →
   createProject projectService req g
   = (inr (reply 500 "Failed to create project"), g))
  ∧ (∀ data, req_body req = Some data →
       truthy (property data "name") = false →
       createProject projectService req g
       = (inr (reply 400 "Project name is required"), g))
  ∧ (∀ data, req_body req = Some data →
       truthy (property data "name") = true →
       createProject projectService req g
       = match ps_createProject projectService data g with
         | (inr project, g') => (inr (sent 201 project), g')
         | (inl error, g') => (inr (reply 500 "Failed to create project"), g')
         end).
Proof.
  unfold createProject, try_catch. split_and!.
  - by intros ->.
  - intros data -> Hname. by rewrite Hname.
  - intros data -> Hname. rewrite Hname. simpl. unfold mbind, M_bind.
    by destruct (ps_createProject projectService data g) as [[?|?] ?].
Qed.

(** X20.  No endpoint of [ProjectController] ever throws, and none lets an
    error out: whatever the service does, each answers exactly one response,
    which is a success (200, 201 or 204), 400 'Project name is required',
    404 'Project not found', or 500 with the fixed message of the endpoint,
    the error itself never being part of the answer. *)
Theorem project_endpoints_always_answer (projectService : ProjectService G P)
    (failure : string) (endpoint : AuthRequest → M G (HttpResponse P))
    (req : AuthRequest) (g : G) :
  (failure, endpoint) ∈ project_endpoints projectService →
  ∃ response g',
    endpoint req g = (inr response, g')
    ∧ (status response = 200 ∨ status response = 201 ∨ status response = 204
       ∨ response = reply 400 "Project name is required"
       ∨ response = reply 404 "Project not found"
       ∨ response = reply 500 failure).
Proof.
  unfold project_endpoints. intros Hin.
  repeat (apply elem_of_cons in Hin as [[= -> ->]|Hin]);
    [| | | | |by apply elem_of_nil in Hin].
  - unfold createProject, try_catch.
    destruct (req_body req) as [data|]; simpl; [|eexists _, _; eauto 10].
    destruct (truthy (property data "name")); simpl;
      [|eexists _, _; eauto 10].
    unfold mbind, M_bind.
    destruct (ps_createProject projectService data g) as [[?|?] ?];
      eexists _, _; eauto 10.
  - unfold listProjects, try_catch, mbind, M_bind.
    destruct (ps_listProjects projectService g) as [[?|?] ?];
      eexists _, _; eauto 10.
  - unfold getProject, try_catch, mbind, M_bind.
    destruct (ps_getProjectById projectService _ g) as [[?|[?|]] ?];
      eexists _, _; eauto 10.
  - unfold updateProject, try_catch, mbind, M_bind.
    destruct (ps_updateProject projectService _ _ g) as [[?|[?|]] ?];
      eexists _, _; eauto 10.
  - unfold deleteProject, try_catch, mbind, M_bind.
    destruct (ps_deleteProject projectService _ g) as [[?|[|]] ?];
      eexists _, _; eauto 10.
Qed.

(** X21.  [createToken] creates the token for the project and the
    environment of the route, whatever the body says: in the object given to
    the service, [projectId] and [environmentId] are the route parameters,
    also when the body carries properties of these names, and every other
    property is the body's.  A missing or falsy [displayName], and a request
    with no body at all, are answered 400 'Token display name is required'
    without calling the service. *)
Theorem createToken_scopes_to_route (tokenService : TokenService G P)
    (req : AuthRequest) (g : G) :
  property (token_dto req) "projectId" = param (req_params req !! "projectId")
  ∧ property (token_dto req) "environmentId"
    = param (req_params req !! "environmentId")
  ∧ (∀ name, name ≠ "projectId"%string → name ≠ "environmentId"%string →
       property (token_dto req) name
       = from_option (λ data, property data name) JsonUndefined (req_body req))
  ∧ (truthy (property (token_dto req) "displayName") = false →
     createToken tokenService req g
     = (inr (reply 400 "Token display name is required"), g))
  ∧ (req_body req = None →
     createToken tokenService req g
     = (inr (reply 400 "Token display name is required"), g))
  ∧ (truthy (property (token_dto req) "displayName") = true →
     createToken tokenService req g
     = match ts_createToken tokenService (token_dto req) g with
       | (inr token, g') => (inr (sent 201 token), g')
       | (inl error, g') => (inr (reply 500 "Failed to create API token"), g')
       end).
Proof.
  assert (Hname : ∀ name,
    name ≠ "projectId"%string → name ≠ "environmentId"%string →
    property (token_dto req) name
    = from_option (λ data, property data name) JsonUndefined (req_body req)).
  { intros name Hp He. unfold property, token_dto.
    rewrite !lookup_insert_ne by done.
    by destruct (req_body req). }
  split_and!.
  - unfold property, token_dto.
    by rewrite lookup_insert_ne, lookup_insert_eq.
  - unfold property, token_dto. by rewrite lookup_insert_eq.
  - exact Hname.
  - intros Hdisplay. unfold createToken, try_catch. by rewrite Hdisplay.
  - intros Hbody. unfold createToken, try_catch.
    rewrite (Hname "displayName"%string), Hbody by done. done.
  - intros Hdisplay. unfold createToken, try_catch. rewrite Hdisplay. simpl.
    unfold mbind, M_bind.
    by destruct (ts_createToken tokenService (token_dto req) g) as [[?|?] ?].
Qed.

End ControllerProperties.

Lemma createProject_validates_name_witness :
  let req body :=
    {| req_authorization := None; req_params := ∅; req_body := body;
       req_token := None |} in
  createProject sample_project_service (req None) []
    = (inr (reply 500 "Failed to create project"), [])
  ∧ createProject sample_project_service
      (req (Some {[ "name"%string := JsonString "" ]})) []
    = (inr (reply 400 "Project name is required"), [])
  ∧ createProject sample_project_service
      (req (Some {[ "name"%string := JsonString "acme" ]})) []
    = (inr (sent 201 "acme"%string), ["acme"%string]).
Proof.
  intros req. split_and!.
  - by apply (createProject_validates_name sample_project_service (req None) []).
  - by eapply (createProject_validates_name sample_project_service
                 (req (Some {[ "name"%string := JsonString "" ]})) []).
  - by erewrite (proj2 (proj2 (createProject_validates_name
                   sample_project_service
                   (req (Some {[ "name"%string := JsonString "acme" ]})) [])));
      [| reflexivity | reflexivity].
Defined.

Lemma project_endpoints_always_answer_witness :
  let req :=
    {| req_authorization := None;
       req_params := {[ "projectId"%string := "acme"%string ]};
       req_body := None; req_token := None |} in
  ∃ response names',
    deleteProject sample_project_service req ["acme"%string]
    = (inr response, names')
    ∧ (status response = 200 ∨ status response = 201 ∨ status response = 204
       ∨ response = reply 400 "Project name is required"
       ∨ response = reply 404 "Project not found"
       ∨ response = reply 500 "Failed to delete project").
Proof.
  intros req.
  apply (project_endpoints_always_answer sample_project_service).
  unfold project_endpoints. do 4 right. left.
Defined.

Lemma createToken_scopes_to_route_witness :
  let req :=
    {| req_authorization := None;
       req_params := {[ "projectId"%string := "p1"%string;
                        "environmentId"%string := "production"%string ]};
       req_body := Some {[ "projectId"%string := JsonString "p2";
                           "displayName"%string := JsonString "ci" ]};
       req_token := None |} in
  property (token_dto req) "projectId" = JsonString "p1"
  ∧ createToken sample_token_service req []
    = (inr (sent 201 "aud_token"%string), [token_dto req]).
Proof.
  intros req.
  destruct (createToken_scopes_to_route sample_token_service req [])
    as (Hproject & _ & _ & _ & _ & Hcreate).
  split.
  - rewrite Hproject. reflexivity.
  - rewrite Hcreate; reflexivity.
Defined.


(** * Properties of the start-up *)

Lemma env_or_truthy `{Runtime} (name fallback : string) :
  fallback ≠ ""%string → truthy (env_or name fallback) = true.
Proof.
  intros Hd. unfold env_or, js_or_else.
  destruct (process_env !! name) as [s|]; [|by apply truthy_string].
  destruct (truthy s) eqn:Hs; [done | by apply truthy_string].
Qed.

Lemma env_or_empty `{Runtime} (name : string) :
  truthy (env_or name "") = truthy (process_env !! name).
Proof.
  unfold env_or, js_or_else.
  destruct (process_env !! name) as [s|]; [|done].
  rewrite truthy_Some. by destruct (truthy s) eqn:Hs.
Qed.

Lemma env_or_unset `{Runtime} (name fallback : string) :
  unset (process_env !! name) → env_or name fallback = fallback.
Proof. apply js_or_else_unset. Qed.

Lemma setup_config_valid `{Runtime} :
  validateConfig setup_config = inr () ↔ setup_ready.
Proof.
  rewrite validateConfig_accepts. unfold setup_ready, setup_config.
  rewrite <- !nonempty_truthy, <- !env_or_empty. split.
  - intros (db & c & [= <-] & [= <-] & _ & Hport & _ & _ & Hpriv & Hpub).
    cbn -[truthy env_or] in Hport, Hpriv, Hpub.
    rewrite truthy_Some in Hport. rewrite truthy_Some in Hpriv.
    by rewrite truthy_Some in Hpub.
  - intros (Hport & Hpriv & Hpub). eexists _, _.
    split; [reflexivity|]. split; [reflexivity|]. cbn -[truthy env_or].
    rewrite !truthy_Some. split_and!; try done; by apply env_or_truthy.
Qed.

Lemma setup_config_errors `{Runtime} (e : JsError) :
  validateConfig setup_config = inl e →
  e ∈ [Error "Database.port is required";
       Error "Crypto.privateKey is required";
       Error "Crypto.publicKey is required"].
Proof.
  unfold validateConfig, setup_config. cbn -[truthy env_or].
  change (truthy (JString ?s)) with (truthy s).
  change (truthy (JNumber ?n)) with (truthy n).
  rewrite !truthy_Some, (env_or_truthy "DB_HOST"), (env_or_truthy "DB_USER"),
    (env_or_truthy "DB_NAME") by done.
  cbn -[truthy env_or].
  destruct (truthy (parseInt _ _)); cbn -[truthy env_or];
    [|intros [= <-]; set_solver].
  destruct (truthy (env_or "CRYPTO_PRIVATE_KEY" "")); cbn -[truthy env_or];
    [|intros [= <-]; set_solver].
  destruct (truthy (env_or "CRYPTO_PUBLIC_KEY" "")); cbn -[truthy env_or];
    [discriminate | intros [= <-]; set_solver].
Qed.

Section SetupProperties.

Context `{Runtime} `{Collaborators W G}.
Variable run_initializeDatabase : DatabaseOptions → M G unit.

Lemma setupAuditLog_returns (g : G) (client : AuditLogClient W) (g' : G) :
  setupAuditLog run_initializeDatabase g = (inr client, g') →
  ∃ g1 created,
    createAuditLogClient setup_config g1 = (inr created, g')
    ∧ client = setContext created (env_or "PROJECT_ID" "default-project")
                 (env_or "ENVIRONMENT" "development").
Proof.
  unfold setupAuditLog, try_catch.
  match goal with
  | |- context [match ?body with _ => _ end] =>
      destruct body as [[e|c] g2] eqn:Hbody; [discriminate|]
  end.
  intros [= -> ->].
  apply bind_returns in Hbody as (_ & g1 & _ & Hbody).
  apply bind_returns in Hbody as (created & g2 & Hcreate & [= <- <-]).
  by exists g1, created.
Qed.

(** X22.  A client that [setupAuditLog] returns always passes the context
    guard: its project and environment are the values of [PROJECT_ID] and
    [ENVIRONMENT], or 'default-project' and 'development' where the variable
    is unset or empty, so none of its operations throws 'Context not set'. *)
Theorem setupAuditLog_context_is_set (g : G) (client : AuditLogClient W)
    (g' : G) :
  setupAuditLog run_initializeDatabase g = (inr client, g') →
  validateContext client = inr ()
  ∧ projectId client = Some (env_or "PROJECT_ID" "default-project")
  ∧ environmentId client = Some (env_or "ENVIRONMENT" "development")
  ∧ (unset (process_env !! "PROJECT_ID") →
     projectId client = Some "default-project"%string)
  ∧ (unset (process_env !! "ENVIRONMENT") →
     environmentId client = Some "development"%string).
Proof.
  intros (g1 & created & _ & ->)%setupAuditLog_returns. split_and!.
  - eapply validateContext_set; [reflexivity | reflexivity | |];
      by apply truthy_string, env_or_truthy.
  - reflexivity.
  - reflexivity.
  - intros Hunset. simpl. by rewrite env_or_unset.
  - intros Hunset. simpl. by rewrite env_or_unset.
Qed.

(** X23.  [setupAuditLog] cannot succeed without a port that parses to a
    non-zero number and both keys: a client is returned only when
    [parseInt] of [DB_PORT] (or of '5432') is truthy and
    [CRYPTO_PRIVATE_KEY] and [CRYPTO_PUBLIC_KEY] are non-empty.  Otherwise,
    when the schema is not initialised first, it rethrows the error of the
    validation, which is one of 'Database.port is required',
    'Crypto.privateKey is required' and 'Crypto.publicKey is required' (the
    host, user and database name having defaults), and nothing was
    constructed. *)
Theorem setupAuditLog_needs_port_and_keys (g : G) :
  (∀ client g', setupAuditLog run_initializeDatabase g = (inr client, g') →
     setup_ready)
  ∧ (env_is "INIT_DB" "true" = false → ¬ setup_ready →
     ∃ e, setupAuditLog run_initializeDatabase g = (inl e, g)
          ∧ e ∈ [Error "Database.port is required";
                 Error "Crypto.privateKey is required";
                 Error "Crypto.publicKey is required"]).
Proof.
  split.
  - intros client g' (g1 & created & Hcreate & _)%setupAuditLog_returns.
    apply setup_config_valid. unfold createAuditLogClient in Hcreate.
    apply bind_returns in Hcreate as ([] & g2 & Hvalid & _).
    by apply lift_returns in Hvalid as [Hvalid _].
  - intros Hinit Hready.
    destruct (validateConfig setup_config) as [e|[]] eqn:Hvalid;
      [|by apply setup_config_valid in Hvalid].
    exists e. split; [|by apply setup_config_errors].
    unfold setupAuditLog, try_catch, createAuditLogClient.
    rewrite Hinit, Hvalid. reflexivity.
Qed.

End SetupProperties.

Lemma setupAuditLog_context_is_set_witness :
  ∃ client : AuditLogClient Store,
    setupAuditLog (H:=sample_setup_runtime) (H1:=sample_collaborators)
      sample_initializeDatabase () = (inr client, ())
    ∧ validateContext client = inr ()
    ∧ projectId client = Some "default-project"%string.
Proof.
  eexists. split; [reflexivity|].
  destruct (setupAuditLog_context_is_set (H:=sample_setup_runtime)
              (H1:=sample_collaborators) sample_initializeDatabase () _ ()
              eq_refl) as (Hguard & _ & _ & Hproject & _).
  split; [exact Hguard|]. apply Hproject. right. reflexivity.
Defined.

Lemma setupAuditLog_needs_port_and_keys_witness :
  ∃ e,
    setupAuditLog (H:=sample_runtime) (H1:=sample_collaborators)
      sample_initializeDatabase () = (inl e, ())
    ∧ e ∈ [Error "Database.port is required";
           Error "Crypto.privateKey is required";
           Error "Crypto.publicKey is required"].
Proof.
  apply (setupAuditLog_needs_port_and_keys (H:=sample_runtime)
           (H1:=sample_collaborators) sample_initializeDatabase ()).
  - reflexivity.
  - intros (_ & (s & Hs & _) & _). discriminate Hs.
Defined.


(** * Properties of the endpoints that address one object *)

(** X24.  The endpoints that address one environment or one token never
    look at the project of the route: their answer depends on the request
    only through the identifier ([environmentId] or [tokenId]) and the
    body.  Two requests that agree on these get the same answer and leave
    the same state, whatever [projectId] each carries, so the project check
    of the route, which compares [projectId] alone, does not restrict which
    environment or token is addressed. *)
Theorem by_id_endpoints_ignore_project {G P}
    (environmentService : EnvironmentService G P)
    (tokenService : TokenService G P)
    (key : string) (endpoint : AuthRequest → M G (HttpResponse P))
    (req req' : AuthRequest) (g : G) :
  (key, endpoint) ∈ by_id_endpoints environmentService tokenService →
  req_params req !! key = req_params req' !! key →
  req_body req = req_body req' →
  endpoint req g = endpoint req' g.
Proof.
  unfold by_id_endpoints. intros Hin Hkey Hbody.
  repeat (apply elem_of_cons in Hin as [[= -> ->]|Hin]);
    [| | | | | |by apply elem_of_nil in Hin].
  - unfold getEnvironment. by rewrite Hkey.
  - unfold updateEnvironment. by rewrite Hkey, Hbody.
  - unfold deleteEnvironment. by rewrite Hkey.
  - unfold getToken. by rewrite Hkey.
  - unfold revokeToken. by rewrite Hkey.
  - unfold deleteToken. by rewrite Hkey.
Qed.

Lemma by_id_endpoints_ignore_project_witness :
  let req projectId :=
    {| req_authorization := None;
       req_params := {[ "projectId"%string := projectId;
                        "environmentId"%string := "env_2"%string ]};
       req_body := None; req_token := None |} in
  getEnvironment sample_environment_service (req "p1"%string) []
  = getEnvironment sample_environment_service (req "p2"%string) []
  ∧ getEnvironment sample_environment_service (req "p1"%string) []
    = (inr (sent 200 "p2"%string), []).
Proof.
  intros req. split; [|reflexivity].
  apply (by_id_endpoints_ignore_project sample_environment_service
           sample_token_service "environmentId").
  - unfold by_id_endpoints. left.
  - reflexivity.
  - reflexivity.
Defined.

(** * Properties of the audit middleware *)

Section AuditMiddlewareProperties.

Context `{Types} {W : Type}.

Lemma withContext_api_event (this : AuditLogClient W) (fields : Payload) :
  withContext this (api_event fields)
  = {| project_id := projectId this;
       environment_id := environmentId this;
       event_rest := fields |}.
Proof. reflexivity. Qed.

Lemma audited_end_guarded (this : AuditLogClient W) (originalEnd : M W unit)
    (fields : Payload) (w w1 : W) :
  originalEnd w = (inr (), w1) →
  validateContext this = inr () →
  audited_end this originalEnd (inr fields) w
  = (inr (), (svc_createEvent (eventService this)
                {| project_id := projectId this;
                   environment_id := environmentId this;
                   event_rest := fields |} w1).2).
Proof.
  intros Hend Hguard.
  unfold audited_end, try_catch, createEvent, mbind, M_bind, lift.
  rewrite Hend, Hguard. cbn. rewrite withContext_api_event.
  by destruct (svc_createEvent _ _ w1) as [[?|?] ?].
Qed.


End AuditMiddlewareProperties.

Section ExampleApplication.

Context `{Runtime} `{Collaborators W G}.
Variable run_initializeDatabase : DatabaseOptions → M G unit.

(** X26.  In the example application, where the middleware is given the
    client of [setupAuditLog], no event is dropped for want of a context,
    and every request whose event can be built reaches the event service
    exactly once, scoped to [PROJECT_ID] and [ENVIRONMENT] of the process
    or to 'default-project' and 'development': the project of an event is
    fixed at start-up and does not depend on the request. *)
Theorem example_app_audits_under_process_context (g g' : G)
    (auditLogClient : AuditLogClient W) (originalEnd : M W unit)
    (properties : Payload) (w w1 : W) :
  setupAuditLog run_initializeDatabase g = (inr auditLogClient, g') →
  originalEnd w = (inr (), w1) →
  audited_end auditLogClient originalEnd (inr properties) w
  = (inr (),
     (svc_createEvent (eventService auditLogClient)
        {| project_id := Some (env_or "PROJECT_ID" "default-project");
           environment_id := Some (env_or "ENVIRONMENT" "development");
           event_rest := properties |} w1).2).
Proof.
  intros (g1 & created & _ & ->)%setupAuditLog_returns Hend.
  rewrite (audited_end_guarded _ _ _ _ _ Hend); [reflexivity|].
  eapply validateContext_set; [reflexivity | reflexivity | |];
    by apply truthy_string, env_or_truthy.
Qed.

End ExampleApplication.


Lemma example_app_audits_under_process_context_witness :
  ∃ client : AuditLogClient Store,
    setupAuditLog (H:=sample_setup_runtime) (H1:=sample_collaborators)
      sample_initializeDatabase () = (inr client, ())
    ∧ audited_end client (mret ()) (inr "api.get"%string) empty_store
      = (inr (), empty_store).
Proof.
  eexists. split; [reflexivity|].
  by rewrite (example_app_audits_under_process_context
                (H:=sample_setup_runtime) (H1:=sample_collaborators)
                sample_initializeDatabase () () _ (mret ())
                ("api.get"%string : @Payload sample_types)
                empty_store empty_store eq_refl eq_refl).
Defined.
